(** * Catalog entity store and OAuth login popup: a shallow embedding

    The catalog backend's [Database] class (entity and location persistence
    over a Knex query builder) and the login popup protocol of
    [OAuthRequestManager], with the properties their specification states. *)

From Stdlib Require Import String Ascii ZArith List Bool Lia Permutation.
Import ListNotations.
Local Open Scope Z_scope.
Local Open Scope string_scope.
#[local] Set Warnings "-register-all".

(** ** JavaScript values *)

(** Plain JSON data, the values a TypeScript [object] slot of a descriptor
    holds after it came in over the wire. *)
Inductive json : Type :=
| JNull
| JBool (b : bool)
| JNum (n : Z)
| JStr (s : string)
| JArr (items : list json)
| JObj (fields : list (string * json)).

(** A value of TypeScript type [object]: not a primitive, hence always
    truthy. *)
Inductive object : Type :=
| ObjectLit (fields : list (string * json))
| ArrayLit (items : list json).

(** [s || fallback] on an optional string tests truthiness: [undefined] and
    the empty string are both falsy. [truthy_string s] keeps [s] exactly when
    it is truthy. *)
Definition truthy_string (s : option string) : option string :=
  match s with
  | Some EmptyString => None
  | Some v => Some v
  | None => None
  end.

(** [n || fallback] on an optional integer: [undefined] and [0] are falsy. *)
Definition truthy_number (n : option Z) : option Z :=
  match n with
  | Some 0 => None
  | Some v => Some v
  | None => None
  end.

(** A text column that holds JSON. [JSON.parse (JSON.stringify d)] is [d] on
    JSON data, and [JSON.stringify] never yields the empty (falsy) string, so
    the text is represented by the document it denotes. *)
Inductive jsontext (A : Type) : Type :=
| JsonText (doc : A).
Arguments JsonText {A} doc.

Definition JSON_stringify {A : Type} (doc : A) : jsontext A := JsonText doc.

Definition JSON_parse {A : Type} (text : jsontext A) : A :=
  match text with JsonText doc => doc end.

(** ** Descriptors (ingestion/descriptors/types.ts) *)

(** [DescriptorEnvelope['metadata']]: every property is optional. *)
Record Metadata : Type := mkMetadata {
  md_uid : option string;
  md_generation : option Z;
  md_name : option string;
  md_namespace : option string;
  md_labels : option object;
  md_annotations : option object;
}.

Record DescriptorEnvelope : Type := mkEnvelope {
  apiVersion : string;
  kind : string;
  metadata : option Metadata;
  spec : option object;
}.

(** [DbEntityRequest] and [DbEntityResponse] have the same shape. *)
Record DbEntityRequest : Type := mkRequest {
  req_locationId : option string;
  req_entity : DescriptorEnvelope;
}.

Record DbEntityResponse : Type := mkResponse {
  resp_locationId : option string;
  resp_entity : DescriptorEnvelope;
}.

(** ** Rows *)

Record DbLocationsRow : Type := mkLocation {
  loc_id : string;
  loc_type : string;
  loc_target : string;
}.

(** [AddDatabaseLocation]: a location before it has an id. *)
Record AddDatabaseLocation : Type := mkAddLocation {
  add_type : string;
  add_target : string;
}.

Record DbEntitiesRow : Type := mkRow {
  row_id : string;
  row_generation : Z;
  row_locationId : option string;
  row_apiVersion : string;
  row_kind : string;
  row_name : option string;
  row_namespace : option string;
  row_metadata : option (jsontext Metadata);
  row_spec : option (jsontext object);
}.

(** ** Serialization *)

(** The object spread [{ ...base, ...over }]: a property of [over] wins,
    a property only [base] has is kept. *)
Definition spread {A : Type} (base over : option A) : option A :=
  match over with
  | Some v => Some v
  | None => base
  end.

Definition spread_metadata (base over : Metadata) : Metadata :=
  {| md_uid := spread (md_uid base) (md_uid over);
     md_generation := spread (md_generation base) (md_generation over);
     md_name := spread (md_name base) (md_name over);
     md_namespace := spread (md_namespace base) (md_namespace over);
     md_labels := spread (md_labels base) (md_labels over);
     md_annotations := spread (md_annotations base) (md_annotations over) |}.

Definition entityDbToResponse (row : DbEntitiesRow) : DbEntityResponse :=
  let base :=
    {| md_uid := Some (row_id row);
       md_generation := Some (row_generation row);
       md_name := None;
       md_namespace := None;
       md_labels := None;
       md_annotations := None |} in
  let md :=
    match row_metadata row with
    | Some text => spread_metadata base (JSON_parse text)
    | None => base
    end in
  let sp :=
    match row_spec row with
    | Some text => Some (JSON_parse text)
    | None => None
    end in
  {| resp_locationId := truthy_string (row_locationId row);
     resp_entity :=
       {| apiVersion := row_apiVersion row;
          kind := row_kind row;
          metadata := Some md;
          spec := sp |} |}.

(** [const output = { ...metadata }; delete output.uid;
    delete output.generation]. *)
Definition delete_uid_generation (m : Metadata) : Metadata :=
  {| md_uid := None;
     md_generation := None;
     md_name := md_name m;
     md_namespace := md_namespace m;
     md_labels := md_labels m;
     md_annotations := md_annotations m |}.

Definition serializeMetadata (m : option Metadata) : option (jsontext Metadata) :=
  match m with
  | None => None
  | Some md => Some (JSON_stringify (delete_uid_generation md))
  end.

Definition serializeSpec (s : option object) : option (jsontext object) :=
  match s with
  | None => None
  | Some o => Some (JSON_stringify o)
  end.

(** [metadata?.f]: the property of an optional metadata object. *)
Definition opt_chain {A : Type} (f : Metadata -> option A)
    (m : option Metadata) : option A :=
  match m with
  | Some md => f md
  | None => None
  end.

(** [uuid] is the value [uuidv4()] returns when the request carries no
    truthy uid. *)
Definition entityRequestToDb (request : DbEntityRequest) (uuid : string)
    : DbEntitiesRow :=
  let md := metadata (req_entity request) in
  {| row_id :=
       match truthy_string (opt_chain md_uid md) with
       | Some u => u
       | None => uuid
       end;
     row_generation :=
       match truthy_number (opt_chain md_generation md) with
       | Some g => g
       | None => 1
       end;
     row_locationId := truthy_string (req_locationId request);
     row_apiVersion := apiVersion (req_entity request);
     row_kind := kind (req_entity request);
     row_name := truthy_string (opt_chain md_name md);
     row_namespace := truthy_string (opt_chain md_namespace md);
     row_metadata := serializeMetadata md;
     row_spec := serializeSpec (spec (req_entity request)) |}.

(** ** The store (Knex over the schema of the initial migration) *)

Inductive error : Type :=
| ConflictError (message : string)
| NotFoundError (message : string)
| ConstraintError (constraint : string)
| TypeError (message : string).

Inductive outcome (A : Type) : Type :=
| Ok (value : A)
| Err (e : error).
Arguments Ok {A} value.
Arguments Err {A} e.

(** The two tables the facade reads and writes, in insertion order. *)
Record Db : Type := mkDb {
  locations_table : list DbLocationsRow;
  entities_table : list DbEntitiesRow;
}.

(** A database action: a promise over the store. It yields a value or
    throws, and leaves the store as it is at that point. *)
Definition M (A : Type) : Type := Db -> outcome A * Db.

Definition ret {A : Type} (a : A) : M A := fun db => (Ok a, db).

Definition throw {A : Type} (e : error) : M A := fun db => (Err e, db).

Definition bind {A B : Type} (m : M A) (k : A -> M B) : M B :=
  fun db =>
    match m db with
    | (Ok a, db') => k a db'
    | (Err e, db') => (Err e, db')
    end.

Declare Scope db_scope.
Delimit Scope db_scope with db.
Notation "x <- m ;; k" := (bind m (fun x => k))
  (at level 100, m at next level, right associativity) : db_scope.
Notation "m ;;; k" := (bind m (fun _ => k))
  (at level 100, right associativity) : db_scope.
Local Open Scope db_scope.

(** [database.transaction(async tx => ...)]: a throw inside rolls the store
    back to what it was on entry. *)
Definition transaction {A : Type} (body : M A) : M A :=
  fun db =>
    match body db with
    | (Ok a, db') => (Ok a, db')
    | (Err e, _) => (Err e, db)
    end.

(** A column value as SQL sees it. *)
Inductive sqlvalue : Type :=
| SqlNull
| SqlText (s : string)
| SqlInt (n : Z).

Definition of_nullable (s : option string) : sqlvalue :=
  match s with
  | Some v => SqlText v
  | None => SqlNull
  end.

(** The value of a column of a row, by the name of the column. The facade
    queries by id, name and namespace only; the two JSON columns are never
    compared. *)
Definition entity_column (column : string) (r : DbEntitiesRow) : sqlvalue :=
  if column =? "id" then SqlText (row_id r)
  else if column =? "generation" then SqlInt (row_generation r)
  else if column =? "locationId" then of_nullable (row_locationId r)
  else if column =? "apiVersion" then SqlText (row_apiVersion r)
  else if column =? "kind" then SqlText (row_kind r)
  else if column =? "name" then of_nullable (row_name r)
  else if column =? "namespace" then of_nullable (row_namespace r)
  else SqlNull.

Definition location_column (column : string) (r : DbLocationsRow) : sqlvalue :=
  if column =? "id" then SqlText (loc_id r)
  else if column =? "type" then SqlText (loc_type r)
  else if column =? "target" then SqlText (loc_target r)
  else SqlNull.

(** One entry of a [.where({ column: wanted })] object: Knex compiles a
    [null] to [column IS NULL] and a value to [column = value], which is
    never true of a NULL column. *)
Definition sql_matches (wanted actual : sqlvalue) : bool :=
  match wanted, actual with
  | SqlNull, SqlNull => true
  | SqlText a, SqlText b => (a =? b)%string
  | SqlInt a, SqlInt b => (a =? b)%Z
  | _, _ => false
  end.

Definition where_ {R : Type} (column_of : string -> R -> sqlvalue)
    (cond : list (string * sqlvalue)) (r : R) : bool :=
  forallb (fun c => sql_matches (snd c) (column_of (fst c) r)) cond.

(** [tx('entities').where(cond).select()] *)
Definition select_entities (cond : list (string * sqlvalue))
    : M (list DbEntitiesRow) :=
  fun db => (Ok (filter (where_ entity_column cond) (entities_table db)), db).

(** [tx('locations').where(cond).select()] *)
Definition select_locations (cond : list (string * sqlvalue))
    : M (list DbLocationsRow) :=
  fun db => (Ok (filter (where_ location_column cond) (locations_table db)), db).

(** The primary key of [entities]: [table.uuid('id').primary()]. *)
Definition entities_pkey_taken (new : DbEntitiesRow) (rows : list DbEntitiesRow)
    : bool :=
  existsb (fun r => (row_id r =? row_id new)%string) rows.

(** [table.unique(['name', 'namespace'], 'entities_unique_name')]. A unique
    index compares with SQL equality, so a row whose name or namespace is
    NULL collides with no row. *)
Definition same_name_namespace (a b : DbEntitiesRow) : bool :=
  match row_name a, row_namespace a, row_name b, row_namespace b with
  | Some n1, Some ns1, Some n2, Some ns2 =>
      (n1 =? n2)%string && (ns1 =? ns2)%string
  | _, _, _, _ => false
  end.

Definition entities_unique_name_taken (new : DbEntitiesRow)
    (rows : list DbEntitiesRow) : bool :=
  existsb (same_name_namespace new) rows.

(** [tx('entities').insert(row)]: the store refuses a row that breaks the
    primary key or the unique index, and appends it otherwise. A row that
    breaks both is refused on the unique index, the index created last
    being the one SQLite checks first. The reference from [locationId] to
    [locations.id] is declared without an action and is not enforced
    here. *)
Definition insert_entity (new : DbEntitiesRow) : M unit :=
  fun db =>
    if entities_unique_name_taken new (entities_table db)
    then (Err (ConstraintError "entities_unique_name"), db)
    else if entities_pkey_taken new (entities_table db)
    then (Err (ConstraintError "entities_pkey"), db)
    else (Ok tt, {| locations_table := locations_table db;
                    entities_table := (entities_table db ++ [new])%list |}).

(** The primary key of [locations]. *)
Definition locations_pkey_taken (new : DbLocationsRow)
    (rows : list DbLocationsRow) : bool :=
  existsb (fun r => (loc_id r =? loc_id new)%string) rows.

(** [tx('locations').insert(row)] *)
Definition insert_location (new : DbLocationsRow) : M unit :=
  fun db =>
    if locations_pkey_taken new (locations_table db)
    then (Err (ConstraintError "locations_pkey"), db)
    else (Ok tt, {| locations_table := (locations_table db ++ [new])%list;
                    entities_table := entities_table db |}).

(** [database('locations').where(cond).del()]: removes the matching rows
    and yields how many there were. *)
Definition del_locations (cond : list (string * sqlvalue)) : M nat :=
  fun db =>
    let hit := where_ location_column cond in
    (Ok (length (filter hit (locations_table db))),
     {| locations_table := filter (fun r => negb (hit r)) (locations_table db);
        entities_table := entities_table db |}).

(** *** Ordering *)

Definition lower_ascii (c : ascii) : ascii :=
  let n := nat_of_ascii c in
  if ((65 <=? n) && (n <=? 90))%nat then ascii_of_nat (n + 32) else c.

Fixpoint toLowerCase (s : string) : string :=
  match s with
  | EmptyString => EmptyString
  | String c rest => String (lower_ascii c) (toLowerCase rest)
  end.

(** Knex's formatter for the direction of an [order by] item:
    [orderBys.indexOf((value || '').toLowerCase()) !== -1 ? value : 'asc']
    with [orderBys = ['asc', 'desc']]. *)
Definition direction (value : string) : string :=
  let v := toLowerCase value in
  if (v =? "asc") || (v =? "desc") then value else "asc".

(** How [ORDER BY ... ASC] ranks two column values: NULL first, numbers
    before text, text by its bytes. *)
Definition sql_le (a b : sqlvalue) : bool :=
  match a, b with
  | SqlNull, _ => true
  | _, SqlNull => false
  | SqlInt x, SqlInt y => (x <=? y)%Z
  | SqlInt _, SqlText _ => true
  | SqlText _, SqlInt _ => false
  | SqlText x, SqlText y => String.leb x y
  end.

Fixpoint insert_by {R : Type} (le : R -> R -> bool) (x : R) (l : list R)
    : list R :=
  match l with
  | [] => [x]
  | y :: rest => if le x y then x :: l else y :: insert_by le x rest
  end.

(** A stable sort: rows that tie on the key keep their store order. *)
Definition sort_by {R : Type} (le : R -> R -> bool) (l : list R) : list R :=
  fold_right (insert_by le) [] l.

(** [.orderBy(column, direction)]: Knex's signature takes ONE column and
    the direction as second argument. *)
Definition orderBy {R : Type} (column_of : string -> R -> sqlvalue)
    (column value : string) (rows : list R) : list R :=
  let key := column_of column in
  if toLowerCase (direction value) =? "desc"
  then sort_by (fun a b => sql_le (key b) (key a)) rows
  else sort_by (fun a b => sql_le (key a) (key b)) rows.

(** [database('entities').orderBy(column, value).select()] *)
Definition select_entities_orderBy (column value : string)
    : M (list DbEntitiesRow) :=
  fun db => (Ok (orderBy entity_column column value (entities_table db)), db).

(** ** The facade *)

Module Database.

(** The optional [uid] the transaction destructures from
    [request.entity.metadata ?? {}]. *)
Definition request_uid (request : DbEntityRequest) : option string :=
  opt_chain md_uid (metadata (req_entity request)).

Definition addOrUpdateEntity (request : DbEntityRequest) (uuid : string)
    : M DbEntityResponse :=
  let newRow := entityRequestToDb request uuid in
  transaction (
    oldRow <-
      match truthy_string (request_uid request) with
      | Some uid =>
          rows <- select_entities [("id", SqlText uid)] ;;
          match rows with
          | r :: _ => ret (Some r)
          | [] => throw (ConflictError "Unexpected uid for new entity")
          end
      | None => ret None
      end ;;
    (* [if (oldRow) { ... }] compares two values and does nothing *)
    insert_entity newRow ;;;
    generatedRows <- select_entities [("id", SqlText (row_id newRow))] ;;
    match generatedRows with
    | r :: _ => ret (entityDbToResponse r)
    | [] => throw (TypeError "Cannot read property of undefined")
    end).

Definition entities : M (list DbEntityResponse) :=
  rows <- select_entities_orderBy "namespace" "name" ;;
  ret (map entityDbToResponse rows).

Definition not_found_component (name : string) (namespace : option string)
    : string :=
  "Found no component with name " ++ name ++ ", namespace " ++
  match truthy_string namespace with
  | Some ns => ns
  | None => "<null>"
  end.

Definition entity (name : string) (namespace : option string)
    : M DbEntityResponse :=
  items <- select_entities
             [("name", SqlText name);
              ("namespace", of_nullable (truthy_string namespace))] ;;
  match items with
  | [item] => ret (entityDbToResponse item)
  | _ => throw (NotFoundError (not_found_component name namespace))
  end.

(** The result is [None] where the source returns [undefined] (the first
    element of an empty re-read). *)
Definition addLocation (location : AddDatabaseLocation) (uuid : string)
    : M (option DbLocationsRow) :=
  transaction (
    existingLocation <-
      select_locations [("target", SqlText (add_target location))] ;;
    match existingLocation with
    | existing :: _ => ret (Some existing)
    | [] =>
        let id := uuid in
        insert_location {| loc_id := id;
                           loc_type := add_type location;
                           loc_target := add_target location |} ;;;
        rows <- select_locations [("id", SqlText id)] ;;
        ret (hd_error rows)
    end).

Definition not_found_location (id : string) : string :=
  "Found no location with ID " ++ id.

Definition removeLocation (id : string) : M unit :=
  result <- del_locations [("id", SqlText id)] ;;
  match result with
  | O => throw (NotFoundError (not_found_location id))
  | S _ => ret tt
  end.

Definition location (id : string) : M DbLocationsRow :=
  items <- select_locations [("id", SqlText id)] ;;
  match items with
  | [] => throw (NotFoundError (not_found_location id))
  | item :: _ => ret item
  end.

Definition locations : M (list DbLocationsRow) :=
  select_locations [].

End Database.

(** ** The login popup *)

Module OAuthRequestManager.

(** A browser window, known by its identity. *)
Definition window : Type := nat.

(** The [error] property of a payload. *)
Record PayloadError : Type := mkPayloadError {
  error_name : string;
  error_message : string;
}.

(** The payload object of a message: [payload_ref] is the identity of the
    object, the rest is what it holds. *)
Record Payload : Type := mkPayload {
  payload_ref : nat;
  payload_error : option PayloadError;
  payload_rest : list (string * json);
}.

Record MessageData : Type := mkData {
  data_type : option string;
  data_payload : option Payload;
}.

(** A [MessageEvent] as the tests build them: any property may be missing. *)
Record MessageEvent : Type := mkEvent {
  source : option window;
  origin : option string;
  data : option MessageData;
}.

Record Options : Type := mkOptions {
  opt_url : string;
  opt_name : string;
  opt_origin : string;
}.

(** The [Error] a promise rejects with. *)
Record JsError : Type := mkJsError {
  name : string;
  message : string;
}.

Inductive settlement : Type :=
| Pending
| Resolved (payload : Payload)
| Rejected (reason : JsError).

(** Modelled from the spec: the state of one [showLoginPopup] call (the
    implementation, OAuthRequestManager.ts, is not among the sources; only
    its test is). It holds the popup opened, the trusted origin, the pending
    result, how often the message listener was added and removed, and
    whether the closed-poll timer runs. *)
Record PopupState : Type := mkPopupState {
  popup : window;
  trusted : string;
  result : settlement;
  listenersAdded : nat;
  listenersRemoved : nat;
  polling : bool;
}.

(** Modelled from the spec: [showLoginPopup(options)] opens the popup
    ([opened] is the reference [window.open] returns), registers exactly one
    message listener and starts polling; the result is pending. *)
Definition showLoginPopup (options : Options) (opened : window) : PopupState :=
  {| popup := opened;
     trusted := opt_origin options;
     result := Pending;
     listenersAdded := 1;
     listenersRemoved := 0;
     polling := true |}.

Definition event_type (ev : MessageEvent) : option string :=
  match data ev with
  | Some d => data_type d
  | None => None
  end.

Definition event_payload (ev : MessageEvent) : option Payload :=
  match data ev with
  | Some d => data_payload d
  | None => None
  end.

(** Modelled from the spec: the listener accepts a message only if ALL of:
    its source is the popup opened, its origin strictly equals the trusted
    origin, its [data.type] is ["oauth-result"], [data.payload] is present.
    The payload is returned when the message is accepted. *)
Definition accepted (st : PopupState) (ev : MessageEvent) : option Payload :=
  match source ev, origin ev, event_type ev, event_payload ev with
  | Some w, Some o, Some t, Some p =>
      if (w =? popup st)%nat && (o =? trusted st) && (t =? "oauth-result")
      then Some p
      else None
  | _, _, _, _ => None
  end.

(** Modelled from the spec: cleanup removes the message listener and stops
    the polling, at the transition to a settled state. *)
Definition settle (st : PopupState) (r : settlement) : PopupState :=
  {| popup := popup st;
     trusted := trusted st;
     result := r;
     listenersAdded := listenersAdded st;
     listenersRemoved := S (listenersRemoved st);
     polling := false |}.

(** Modelled from the spec: the message listener. A message that is not
    accepted is ignored; an accepted one whose payload has an [error] rejects
    with an error of that name and message, any other resolves with the
    payload as it is. Once settled, the listener is gone. *)
Definition messageListener (st : PopupState) (ev : MessageEvent) : PopupState :=
  match result st with
  | Pending =>
      match accepted st ev with
      | Some p =>
          match payload_error p with
          | Some e =>
              settle st (Rejected {| name := error_name e;
                                     message := error_message e |})
          | None => settle st (Resolved p)
          end
      | None => st
      end
  | _ => st
  end.

(** Modelled from the spec: one tick of the poll of the popup's [closed]
    flag. *)
Definition pollClosed (st : PopupState) (closed : bool) : PopupState :=
  match result st with
  | Pending =>
      if closed
      then settle st (Rejected {| name := "Error";
                                  message := "Login failed, popup was closed" |})
      else st
  | _ => st
  end.

End OAuthRequestManager.

(** ** Sample data *)

Module Sample.

Definition empty_db : Db := {| locations_table := []; entities_table := [] |}.

(** [{ name, namespace, generation, uid }] as a metadata object. *)
Definition meta (name namespace : option string) (generation : option Z)
    (uid : option string) : Metadata :=
  {| md_uid := uid;
     md_generation := generation;
     md_name := name;
     md_namespace := namespace;
     md_labels := None;
     md_annotations := None |}.

(** [{ entity: { apiVersion: 'v1', kind: 'Component', metadata, spec: {} } }] *)
Definition component (m : Metadata) : DbEntityRequest :=
  {| req_locationId := None;
     req_entity := {| apiVersion := "v1";
                      kind := "Component";
                      metadata := Some m;
                      spec := Some (ObjectLit []) |} |}.

Definition named (name : string) : DbEntityRequest :=
  component (meta (Some name) None None None).

Definition in_namespace (name namespace : string) : DbEntityRequest :=
  component (meta (Some name) (Some namespace) None None).

(** The store after [request] was added to the empty store. *)
Definition after_add (request : DbEntityRequest) (uuid : string) : Db :=
  snd (Database.addOrUpdateEntity request uuid empty_db).

Definition github : AddDatabaseLocation :=
  {| add_type := "github"; add_target := "https://example.com/a.yaml" |}.

Definition popup_options : OAuthRequestManager.Options :=
  {| OAuthRequestManager.opt_url := "url";
     OAuthRequestManager.opt_name := "name";
     OAuthRequestManager.opt_origin := "my-origin" |}.

(** The state of the tests right after [showLoginPopup]: the popup is
    window 7. *)
Definition waiting : OAuthRequestManager.PopupState :=
  OAuthRequestManager.showLoginPopup popup_options 7%nat.

Definition event (source : option nat) (origin : option string)
    (data : option OAuthRequestManager.MessageData)
    : OAuthRequestManager.MessageEvent :=
  {| OAuthRequestManager.source := source;
     OAuthRequestManager.origin := origin;
     OAuthRequestManager.data := data |}.

Definition myPayload : OAuthRequestManager.Payload :=
  {| OAuthRequestManager.payload_ref := 1%nat;
     OAuthRequestManager.payload_error := None;
     OAuthRequestManager.payload_rest := [] |}.

Definition nopePayload : OAuthRequestManager.Payload :=
  {| OAuthRequestManager.payload_ref := 2%nat;
     OAuthRequestManager.payload_error :=
       Some {| OAuthRequestManager.error_name := "NopeError";
               OAuthRequestManager.error_message := "NOPE" |};
     OAuthRequestManager.payload_rest := [] |}.

Definition oauth_result (p : OAuthRequestManager.Payload)
    : OAuthRequestManager.MessageEvent :=
  event (Some 7%nat) (Some "my-origin")
    (Some {| OAuthRequestManager.data_type := Some "oauth-result";
             OAuthRequestManager.data_payload := Some p |}).

End Sample.

(** ** Vocabulary of the statements *)

(** The rows [entity(name, namespace)] asks the store for: the name column
    equals [name], and the namespace column equals the namespace, or is NULL
    when none (or an empty one) is given. *)
Definition names_row (name : string) (namespace : option string)
    (r : DbEntitiesRow) : bool :=
  match row_name r with
  | Some n => (n =? name)
  | None => false
  end &&
  match truthy_string namespace, row_namespace r with
  | Some ns, Some ns' => (ns' =? ns)
  | None, None => true
  | _, _ => false
  end.

(** What the store holds once [new] went in. *)
Definition with_entity (db : Db) (new : DbEntitiesRow) : Db :=
  {| locations_table := locations_table db;
     entities_table := (entities_table db ++ [new])%list |}.

(** The envelope [back] carries what [request] asked to persist: the same
    apiVersion, kind, metadata.name, metadata.namespace and spec, and a uid
    and a generation that are present. *)
Definition reads_back (request : DbEntityRequest) (back : DbEntityResponse)
    : Prop :=
  let sent := req_entity request in
  let got := resp_entity back in
  apiVersion got = apiVersion sent /\
  kind got = kind sent /\
  opt_chain md_name (metadata got) = opt_chain md_name (metadata sent) /\
  opt_chain md_namespace (metadata got)
    = opt_chain md_namespace (metadata sent) /\
  spec got = spec sent /\
  opt_chain md_uid (metadata got) <> None /\
  opt_chain md_generation (metadata got) <> None.

(** The round trip as the specification words it, for one request on one
    store: whenever the metadata has a name, persisting and then reading by
    that name and namespace gives the request back. *)
Definition round_trip (request : DbEntityRequest) (uuid : string) (db : Db)
    : Prop :=
  forall m n resp db',
    metadata (req_entity request) = Some m ->
    md_name m = Some n ->
    Database.addOrUpdateEntity request uuid db = (Ok resp, db') ->
    exists back,
      Database.entity n (md_namespace m) db' = (Ok back, db') /\
      reads_back request back.

(** The outcome of [addOrUpdateEntity] as the specification words it, for
    one request on one store: a supplied uid that no row has is a conflict;
    otherwise the serialized row is inserted and its persisted form
    returned. *)
Definition conflict_or_insert (request : DbEntityRequest) (uuid : string)
    (db : Db) : Prop :=
  let newRow := entityRequestToDb request uuid in
  let inserted :=
    Database.addOrUpdateEntity request uuid db
    = (Ok (entityDbToResponse newRow), with_entity db newRow) in
  match Database.request_uid request with
  | Some u =>
      if existsb (fun r => row_id r =? u) (entities_table db)
      then inserted
      else exists msg,
        Database.addOrUpdateEntity request uuid db
        = (Err (ConflictError msg), db)
  | None => inserted
  end.

(** The [ORDER BY namespace ASC] comparison of two rows. *)
Definition namespace_le (a b : DbEntitiesRow) : bool :=
  sql_le (of_nullable (row_namespace a)) (of_nullable (row_namespace b)).

(** The order by the pair (namespace, name) the specification asks of
    [entities()]: namespace first, name among equal namespaces. *)
Definition pair_le (ns1 n1 ns2 n2 : sqlvalue) : bool :=
  if sql_le ns1 ns2
  then if sql_le ns2 ns1 then sql_le n1 n2 else true
  else false.

Definition response_namespace (e : DbEntityResponse) : sqlvalue :=
  of_nullable (opt_chain md_namespace (metadata (resp_entity e))).

Definition response_name (e : DbEntityResponse) : sqlvalue :=
  of_nullable (opt_chain md_name (metadata (resp_entity e))).

Definition namespace_name_le (a b : DbEntityResponse) : bool :=
  pair_le (response_namespace a) (response_name a)
          (response_namespace b) (response_name b).

(** Each element is below the next one. *)
Fixpoint sortedb {A : Type} (le : A -> A -> bool) (l : list A) : bool :=
  match l with
  | [] => true
  | a :: rest =>
      match rest with
      | [] => true
      | b :: _ => le a b && sortedb le rest
      end
  end.

(** The store after [b] in namespace [x] and then [a] in namespace [x] were
    added. *)
Definition b_then_a : Db :=
  snd (Database.addOrUpdateEntity (Sample.in_namespace "a" "x") "uuid-2"
         (Sample.after_add (Sample.in_namespace "b" "x") "uuid-1")).

(** The messages the first test sends before the valid one; "none of these
    should be accepted". *)
Definition rejected_by_test : list OAuthRequestManager.MessageEvent :=
  [ Sample.event None None None;
    Sample.event (Some 7%nat) None None;
    Sample.event None (Some "my-origin") None;
    Sample.event None None
      (Some {| OAuthRequestManager.data_type := Some "oauth-result";
               OAuthRequestManager.data_payload := None |});
    Sample.event (Some 7%nat) (Some "my-origin")
      (Some {| OAuthRequestManager.data_type := None;
               OAuthRequestManager.data_payload := None |});
    Sample.event (Some 7%nat) (Some "my-origin")
      (Some {| OAuthRequestManager.data_type := Some "not-oauth-result";
               OAuthRequestManager.data_payload := Some Sample.myPayload |}) ].

(** No two elements of the list are the [same]: what a primary key or a
    unique index asks of a table. *)
Fixpoint distinct_by {A : Type} (same : A -> A -> bool) (l : list A) : bool :=
  match l with
  | [] => true
  | x :: rest => negb (existsb (same x) rest) && distinct_by same rest
  end.

Definition same_entity_id (a b : DbEntitiesRow) : bool :=
  row_id a =? row_id b.

Definition same_location_id (a b : DbLocationsRow) : bool :=
  loc_id a =? loc_id b.

Definition same_target (a b : DbLocationsRow) : bool :=
  loc_target a =? loc_target b.

(** The primary key of [entities] holds in the store. *)
Definition entities_pkey (db : Db) : bool :=
  distinct_by same_entity_id (entities_table db).

(** The unique index [entities_unique_name] holds in the store. *)
Definition entities_unique_name (db : Db) : bool :=
  distinct_by same_name_namespace (entities_table db).

(** The primary key of [locations] holds in the store. *)
Definition locations_pkey (db : Db) : bool :=
  distinct_by same_location_id (locations_table db).

(** No two locations of the store have the same target. *)
Definition targets_unique (db : Db) : bool :=
  distinct_by same_target (locations_table db).

(** What the store holds once the location [new] went in. *)
Definition with_location (db : Db) (new : DbLocationsRow) : Db :=
  {| locations_table := (locations_table db ++ [new])%list;
     entities_table := entities_table db |}.

(** The location row [addLocation] builds from its input. *)
Definition new_location (location : AddDatabaseLocation) (uuid : string)
    : DbLocationsRow :=
  {| loc_id := uuid;
     loc_type := add_type location;
     loc_target := add_target location |}.

(** A store with two locations and two entities, one of them without a
    namespace. *)
Definition small_db : Db :=
  {| locations_table :=
       [ {| loc_id := "loc-1"; loc_type := "github";
            loc_target := "https://example.com/a.yaml" |};
         {| loc_id := "loc-2"; loc_type := "file";
            loc_target := "/tmp/b.yaml" |} ];
     entities_table :=
       [ entityRequestToDb (Sample.in_namespace "a" "x") "uuid-1";
         entityRequestToDb (Sample.named "a") "uuid-2" ] |}.

(** The metadata blob of the row, if it has one, has neither a uid nor a
    generation key. *)
Definition blob_without_uid_generation (r : DbEntitiesRow) : bool :=
  match row_metadata r with
  | Some text =>
      match md_uid (JSON_parse text), md_generation (JSON_parse text) with
      | None, None => true
      | _, _ => false
      end
  | None => true
  end.

Definition blobs_without_uid_generation (db : Db) : bool :=
  forallb blob_without_uid_generation (entities_table db).

(** The envelope is the row read back, and its uid and generation are the
    id and generation columns of the row. *)
Definition from_columns (row : DbEntitiesRow) (e : DbEntityResponse) : Prop :=
  e = entityDbToResponse row /\
  opt_chain md_uid (metadata (resp_entity e)) = Some (row_id row) /\
  opt_chain md_generation (metadata (resp_entity e))
  = Some (row_generation row).

(** * Properties *)

(** ** Truthiness and the where clauses *)

Lemma truthy_string_Some (s : option string) (v : string) :
  truthy_string s = Some v <-> s = Some v /\ v <> "".
Proof.
  destruct s as [[|c r]|]; simpl; split.
  - discriminate.
  - intros [E N]. inversion E; subst. now contradiction N.
  - intros E. inversion E; subst. split; [reflexivity | discriminate].
  - intros [E _]. exact E.
  - discriminate.
  - intros [E _]. discriminate.
Qed.

Lemma truthy_string_idem (s : option string) :
  truthy_string (truthy_string s) = truthy_string s.
Proof. now destruct s as [[|c r]|]. Qed.

Lemma where_id_entity (u : string) (r : DbEntitiesRow) :
  where_ entity_column [("id", SqlText u)] r = (row_id r =? u).
Proof.
  unfold where_, entity_column; simpl.
  rewrite andb_true_r. apply String.eqb_sym.
Qed.

Lemma where_id_location (u : string) (r : DbLocationsRow) :
  where_ location_column [("id", SqlText u)] r = (loc_id r =? u).
Proof.
  unfold where_, location_column; simpl.
  rewrite andb_true_r. apply String.eqb_sym.
Qed.

Lemma where_target_location (t : string) (r : DbLocationsRow) :
  where_ location_column [("target", SqlText t)] r = (loc_target r =? t).
Proof.
  unfold where_, location_column; simpl.
  rewrite andb_true_r. apply String.eqb_sym.
Qed.

Lemma where_name_namespace (name : string) (namespace : option string)
    (r : DbEntitiesRow) :
  where_ entity_column
    [("name", SqlText name);
     ("namespace", of_nullable (truthy_string namespace))] r
  = names_row name namespace r.
Proof.
  unfold where_, entity_column, names_row; simpl.
  rewrite andb_true_r.
  destruct (row_name r) as [n|], (truthy_string namespace) as [ns|],
    (row_namespace r) as [ns'|]; simpl;
    rewrite ?(String.eqb_sym name), ?(String.eqb_sym ns); reflexivity.
Qed.

Lemma filter_ext_eq {A : Type} (f g : A -> bool) (l : list A) :
  (forall x, f x = g x) -> filter f l = filter g l.
Proof. intros E. apply filter_ext. exact E. Qed.

Lemma filter_nil_existsb {A : Type} (f : A -> bool) (l : list A) :
  filter f l = [] <-> existsb f l = false.
Proof.
  induction l as [|x l IH]; simpl.
  - split; reflexivity.
  - destruct (f x); simpl.
    + split; discriminate.
    + exact IH.
Qed.

Lemma filter_cons_existsb {A : Type} (f : A -> bool) (l : list A) x rest :
  filter f l = x :: rest -> existsb f l = true.
Proof.
  intros E. destruct (existsb f l) eqn:X; [reflexivity|].
  apply filter_nil_existsb in X. congruence.
Qed.

(** ** addOrUpdateEntity, case by case *)

Lemma row_id_of_request (request : DbEntityRequest) (uuid : string) :
  row_id (entityRequestToDb request uuid) =
  match truthy_string (Database.request_uid request) with
  | Some u => u
  | None => uuid
  end.
Proof. reflexivity. Qed.

Lemma select_by_id (u : string) (rows : list DbEntitiesRow) :
  filter (where_ entity_column [("id", SqlText u)]) rows =
  filter (fun r => row_id r =? u) rows.
Proof. apply filter_ext_eq. intros r. apply where_id_entity. Qed.

(** The error of an insert the store refuses. *)
Lemma insert_entity_refused (new : DbEntitiesRow) (db : Db) :
  entities_unique_name_taken new (entities_table db) = true \/
  entities_pkey_taken new (entities_table db) = true ->
  insert_entity new db
  = (Err (ConstraintError
            (if entities_unique_name_taken new (entities_table db)
             then "entities_unique_name" else "entities_pkey")), db).
Proof.
  unfold insert_entity. intros [H|H].
  - now rewrite H.
  - rewrite H. now destruct (entities_unique_name_taken _ _).
Qed.

(** The transaction of [addOrUpdateEntity] written out: a truthy uid leads
    to a conflict or, when a row has it, to an insert the store refuses;
    without one the row goes in if the store takes it. *)
Lemma addOrUpdateEntity_cases (request : DbEntityRequest) (uuid : string)
    (db : Db) :
  Database.addOrUpdateEntity request uuid db =
  let newRow := entityRequestToDb request uuid in
  let refused :=
    (Err (ConstraintError
            (if entities_unique_name_taken newRow (entities_table db)
             then "entities_unique_name" else "entities_pkey")), db) in
  match truthy_string (Database.request_uid request) with
  | Some u =>
      if existsb (fun r => row_id r =? u) (entities_table db)
      then refused
      else (Err (ConflictError "Unexpected uid for new entity"), db)
  | None =>
      if entities_unique_name_taken newRow (entities_table db)
         || entities_pkey_taken newRow (entities_table db)
      then refused
      else (Ok (entityDbToResponse newRow), with_entity db newRow)
  end.
Proof.
  unfold Database.addOrUpdateEntity, transaction, bind.
  pose proof (row_id_of_request request uuid) as Hid.
  set (newRow := entityRequestToDb request uuid) in *.
  cbv zeta.
  destruct (truthy_string (Database.request_uid request)) as [u|] eqn:Hu.
  - unfold select_entities at 1. rewrite select_by_id.
    destruct (filter (fun r => row_id r =? u) (entities_table db))
      as [|r rest] eqn:Hf.
    + apply filter_nil_existsb in Hf. rewrite Hf. reflexivity.
    + apply filter_cons_existsb in Hf. rewrite Hf.
      unfold ret. rewrite insert_entity_refused; [reflexivity|].
      right. unfold entities_pkey_taken. now rewrite Hid.
  - unfold ret.
    destruct (entities_unique_name_taken newRow (entities_table db)) eqn:Hq.
    { rewrite insert_entity_refused by (now left). now rewrite Hq. }
    destruct (entities_pkey_taken newRow (entities_table db)) eqn:Hp.
    { rewrite insert_entity_refused by (now right). now rewrite Hq. }
    unfold insert_entity. rewrite Hq, Hp. cbn [orb].
    unfold select_entities. cbn [entities_table].
    rewrite select_by_id, filter_app.
    unfold entities_pkey_taken in Hp.
    apply filter_nil_existsb in Hp. rewrite Hp.
    cbn [filter app]. rewrite String.eqb_refl. reflexivity.
Qed.

(** Reading a row back undoes the serialization of the request it was made
    from, whatever the request. *)
Lemma entityDbToResponse_entityRequestToDb (request : DbEntityRequest)
    (uuid : string) :
  reads_back request (entityDbToResponse (entityRequestToDb request uuid)).
Proof.
  destruct request as [l [av k [[u g n ns lb an]|] [s|]]];
    unfold reads_back; cbn; repeat split;
    try discriminate; try (now destruct n); now destruct ns.
Qed.

Lemma names_row_truthy (n : string) (ns : option string) (r : DbEntitiesRow) :
  names_row n (truthy_string ns) r = names_row n ns r.
Proof. unfold names_row. now rewrite truthy_string_idem. Qed.

(** A stored row that answers to the name and a present namespace of a new
    row collides with it on the unique index. *)
Lemma names_row_collides (new r : DbEntitiesRow) (n ns : string) :
  row_name new = Some n ->
  row_namespace new = Some ns ->
  names_row n (Some ns) r = true ->
  ns <> "" ->
  same_name_namespace new r = true.
Proof.
  intros Hn Hns Hr Hne. unfold names_row, same_name_namespace in *.
  rewrite Hn, Hns.
  assert (truthy_string (Some ns) = Some ns) as Ht
    by (apply truthy_string_Some; now split).
  rewrite Ht in Hr.
  destruct (row_name r) as [n'|]; [|discriminate].
  destruct (row_namespace r) as [ns'|];
    [|now rewrite andb_false_r in Hr].
  apply andb_prop in Hr as [E1 E2].
  rewrite (String.eqb_sym n n'), (String.eqb_sym ns ns'), E1, E2.
  reflexivity.
Qed.

Lemma existsb_false_In {A : Type} (f : A -> bool) (l : list A) :
  existsb f l = false <-> forall x, In x l -> f x = false.
Proof.
  split.
  - intros H x Hx. destruct (f x) eqn:E; [|reflexivity].
    assert (existsb f l = true) by (apply existsb_exists; eauto). congruence.
  - intros H. destruct (existsb f l) eqn:E; [|reflexivity].
    apply existsb_exists in E as [x [Hx Fx]]. rewrite (H x Hx) in Fx.
    discriminate.
Qed.

(** ** C1: the round trip *)

(** C1 (as amended). For every request whose metadata has a non-empty name:
    if [addOrUpdateEntity] succeeds, and, when the namespace is absent or
    empty, no stored row already had that name with a NULL namespace, then
    [entity(name, namespace)] on the resulting store returns an envelope
    with the apiVersion, kind, metadata.name, metadata.namespace and spec of
    the request and with uid and generation present; it is the envelope
    [addOrUpdateEntity] returned. *)
Theorem C1_round_trip_when_unambiguous (request : DbEntityRequest)
    (uuid : string) (db db' : Db) (m : Metadata) (n : string)
    (resp : DbEntityResponse) :
  metadata (req_entity request) = Some m ->
  md_name m = Some n ->
  n <> "" ->
  (truthy_string (md_namespace m) = None ->
   existsb (names_row n None) (entities_table db) = false) ->
  Database.addOrUpdateEntity request uuid db = (Ok resp, db') ->
  exists back,
    Database.entity n (md_namespace m) db' = (Ok back, db') /\
    reads_back request back /\
    back = resp.
Proof.
  intros Hm Hn Hne Hfree Hadd.
  rewrite addOrUpdateEntity_cases in Hadd. cbv zeta in Hadd.
  destruct (truthy_string (Database.request_uid request)) as [u|].
  { destruct (existsb _ _) in Hadd; discriminate. }
  destruct (entities_unique_name_taken _ _) eqn:Huniq; [discriminate|].
  destruct (entities_pkey_taken _ _); [discriminate|].
  cbn [orb] in Hadd. inversion Hadd; subst resp db'; clear Hadd.
  set (newRow := entityRequestToDb request uuid) in *.
  assert (row_name newRow = Some n) as Hrn.
  { unfold newRow, entityRequestToDb; cbn. rewrite Hm; cbn. rewrite Hn.
    apply truthy_string_Some. now split. }
  assert (row_namespace newRow = truthy_string (md_namespace m)) as Hrns.
  { unfold newRow, entityRequestToDb; cbn. now rewrite Hm. }
  assert (names_row n (md_namespace m) newRow = true) as Hnew.
  { unfold names_row. rewrite Hrn, Hrns, String.eqb_refl. cbn.
    destruct (truthy_string (md_namespace m)); [apply String.eqb_refl|
      reflexivity]. }
  assert (filter (names_row n (md_namespace m)) (entities_table db) = [])
    as Hold.
  { apply filter_nil_existsb, existsb_false_In. intros r Hr.
    destruct (names_row n (md_namespace m) r) eqn:E; [|reflexivity].
    destruct (truthy_string (md_namespace m)) as [ns|] eqn:Hns.
    - unfold entities_unique_name_taken in Huniq.
      rewrite existsb_false_In in Huniq. rewrite <- (Huniq r Hr).
      symmetry. apply (names_row_collides newRow r n ns Hrn Hrns).
      + rewrite <- names_row_truthy, Hns in E.
        rewrite <- names_row_truthy. cbn.
        apply truthy_string_Some in Hns as [_ Hns].
        destruct ns; [now contradiction Hns | exact E].
      + apply truthy_string_Some in Hns. tauto.
    - specialize (Hfree eq_refl). rewrite existsb_false_In in Hfree.
      rewrite <- (Hfree r Hr). rewrite <- names_row_truthy, Hns in E.
      symmetry. exact E. }
  exists (entityDbToResponse newRow). split; [|split].
  - unfold Database.entity, bind, select_entities.
    rewrite (filter_ext_eq _ _ _ (where_name_namespace n (md_namespace m))).
    unfold with_entity; cbn [entities_table].
    rewrite filter_app, Hold. cbn [filter app]. rewrite Hnew. reflexivity.
  - apply entityDbToResponse_entityRequestToDb.
  - reflexivity.
Qed.

Lemma C1_round_trip_witness :
  exists back,
    Database.entity "a" None (Sample.after_add (Sample.named "a") "uuid-1")
    = (Ok back, Sample.after_add (Sample.named "a") "uuid-1") /\
    reads_back (Sample.named "a") back /\
    back = entityDbToResponse (entityRequestToDb (Sample.named "a") "uuid-1").
Proof.
  apply (C1_round_trip_when_unambiguous (Sample.named "a") "uuid-1"
           Sample.empty_db (Sample.after_add (Sample.named "a") "uuid-1")
           (Sample.meta (Some "a") None None None) "a").
  - reflexivity.
  - reflexivity.
  - discriminate.
  - intros _. reflexivity.
  - reflexivity.
Defined.

(** An entity whose name is the empty string is stored with a NULL name
    ([name || null]), while [entity('')] asks for the name [''] itself. *)
Example empty_name_is_not_found :
  Database.addOrUpdateEntity (Sample.named "") "uuid-1" Sample.empty_db
  = (Ok (entityDbToResponse (entityRequestToDb (Sample.named "") "uuid-1")),
     Sample.after_add (Sample.named "") "uuid-1") /\
  row_name (entityRequestToDb (Sample.named "") "uuid-1") = None /\
  Database.entity "" None (Sample.after_add (Sample.named "") "uuid-1")
  = (Err (NotFoundError "Found no component with name , namespace <null>"),
     Sample.after_add (Sample.named "") "uuid-1").
Proof. repeat split. Qed.

(** Two entities of one name and no namespace both go in, the unique index
    not applying to a NULL namespace; [entity] then finds two rows. *)
Example same_name_without_namespace_twice :
  let db1 := Sample.after_add (Sample.named "a") "uuid-1" in
  let second := entityRequestToDb (Sample.named "a") "uuid-2" in
  Database.addOrUpdateEntity (Sample.named "a") "uuid-2" db1
  = (Ok (entityDbToResponse second), with_entity db1 second) /\
  Database.entity "a" None (with_entity db1 second)
  = (Err (NotFoundError "Found no component with name a, namespace <null>"),
     with_entity db1 second).
Proof. repeat split. Qed.

(** C1 (as stated) fails: at the request [{ metadata: { name: '' } }] on
    the empty store, and at a second [{ metadata: { name: 'a' } }] on the
    store that already holds the first, [addOrUpdateEntity] succeeds and
    [entity(name, namespace)] then fails with NotFound. *)
Lemma C1_round_trip_counterexample :
  ~ round_trip (Sample.named "") "uuid-1" Sample.empty_db /\
  ~ round_trip (Sample.named "a") "uuid-2"
      (Sample.after_add (Sample.named "a") "uuid-1").
Proof.
  split; intros H.
  - destruct empty_name_is_not_found as [Hadd [_ Hget]].
    destruct (H _ "" _ _ eq_refl eq_refl Hadd) as [back [Hback _]].
    cbn [md_namespace Sample.meta] in Hback.
    rewrite Hget in Hback. discriminate.
  - destruct same_name_without_namespace_twice as [Hadd Hget].
    destruct (H _ "a" _ _ eq_refl eq_refl Hadd) as [back [Hback _]].
    cbn [md_namespace Sample.meta] in Hback.
    cbv zeta in Hget. rewrite Hget in Hback. discriminate.
Qed.

(** ** C2: the generation on create *)

(** C2 (the code departs from it). A create request that carries
    [generation: 5] is stored with generation 5 and read back with
    generation 5, not 1; in general the stored generation of a create
    request is the client's whenever that is not 0. *)
Theorem C2_generation_taken_from_request :
  let request := Sample.component (Sample.meta (Some "a") None (Some 5) None) in
  let row := entityRequestToDb request "uuid-1" in
  Database.addOrUpdateEntity request "uuid-1" Sample.empty_db
  = (Ok (entityDbToResponse row), with_entity Sample.empty_db row) /\
  row_generation row = 5 /\
  opt_chain md_generation (metadata (resp_entity (entityDbToResponse row)))
  = Some 5 /\
  forall (g : Z) (uuid : string),
    row_generation
      (entityRequestToDb
         (Sample.component (Sample.meta (Some "a") None (Some g) None)) uuid)
    = if (g =? 0)%Z then 1 else g.
Proof.
  repeat split. intros g uuid. now destruct g.
Qed.

(** ** C3: conflict, or insert *)

(** C3 (as amended). A request whose uid is non-empty and matches no row
    fails with the conflict error, the store unchanged. A request with no
    uid (or an empty one) inserts its serialized row under the generated id
    and returns the persisted form, provided the store takes the row: the
    id is unused and no row has the same non-NULL name and namespace.
    Otherwise the constraint error of the store is what the call throws,
    and nothing is written. *)
Theorem C3_conflict_else_insert (request : DbEntityRequest) (uuid : string)
    (db : Db) :
  let newRow := entityRequestToDb request uuid in
  (forall u,
     Database.request_uid request = Some u ->
     u <> "" ->
     existsb (fun r => row_id r =? u) (entities_table db) = false ->
     Database.addOrUpdateEntity request uuid db
     = (Err (ConflictError "Unexpected uid for new entity"), db)) /\
  (truthy_string (Database.request_uid request) = None ->
   entities_pkey_taken newRow (entities_table db) = false ->
   entities_unique_name_taken newRow (entities_table db) = false ->
   row_id newRow = uuid /\
   Database.addOrUpdateEntity request uuid db
   = (Ok (entityDbToResponse newRow), with_entity db newRow)) /\
  (truthy_string (Database.request_uid request) = None ->
   entities_pkey_taken newRow (entities_table db) = true \/
   entities_unique_name_taken newRow (entities_table db) = true ->
   Database.addOrUpdateEntity request uuid db
   = (Err (ConstraintError
             (if entities_unique_name_taken newRow (entities_table db)
              then "entities_unique_name" else "entities_pkey")), db)).
Proof.
  cbv zeta. split; [|split].
  - intros u Hu Hne Hnone.
    rewrite addOrUpdateEntity_cases. cbv zeta.
    assert (truthy_string (Database.request_uid request) = Some u) as ->
      by (apply truthy_string_Some; now split).
    now rewrite Hnone.
  - intros Hu Hp Hq. split.
    + now rewrite row_id_of_request, Hu.
    + rewrite addOrUpdateEntity_cases. cbv zeta. now rewrite Hu, Hp, Hq.
  - intros Hu Htaken.
    rewrite addOrUpdateEntity_cases. cbv zeta. rewrite Hu.
    destruct Htaken as [H|H]; rewrite H; [|reflexivity].
    now rewrite orb_true_r.
Qed.

Lemma C3_conflict_else_insert_witness :
  Database.addOrUpdateEntity
    (Sample.component (Sample.meta (Some "a") None None (Some "no-such-id")))
    "uuid-1" Sample.empty_db
  = (Err (ConflictError "Unexpected uid for new entity"), Sample.empty_db) /\
  Database.addOrUpdateEntity (Sample.named "a") "uuid-1" Sample.empty_db
  = (Ok (entityDbToResponse (entityRequestToDb (Sample.named "a") "uuid-1")),
     with_entity Sample.empty_db
       (entityRequestToDb (Sample.named "a") "uuid-1")) /\
  Database.addOrUpdateEntity (Sample.named "a") "uuid-1"
    (Sample.after_add (Sample.named "a") "uuid-1")
  = (Err (ConstraintError "entities_pkey"),
     Sample.after_add (Sample.named "a") "uuid-1").
Proof.
  split; [|split].
  - apply (proj1 (C3_conflict_else_insert
                    (Sample.component
                       (Sample.meta (Some "a") None None (Some "no-such-id")))
                    "uuid-1" Sample.empty_db) "no-such-id").
    + reflexivity.
    + discriminate.
    + reflexivity.
  - apply (proj1 (proj2 (C3_conflict_else_insert (Sample.named "a") "uuid-1"
                           Sample.empty_db))).
    + reflexivity.
    + reflexivity.
    + reflexivity.
  - apply (proj2 (proj2 (C3_conflict_else_insert (Sample.named "a") "uuid-1"
                           (Sample.after_add (Sample.named "a") "uuid-1")))).
    + reflexivity.
    + left. reflexivity.
Defined.

(** A second entity of the same name and namespace is refused by the unique
    index, and the error of the store is what the caller gets. *)
Example same_name_and_namespace_refused :
  Database.addOrUpdateEntity (Sample.in_namespace "a" "x") "uuid-2"
    (Sample.after_add (Sample.in_namespace "a" "x") "uuid-1")
  = (Err (ConstraintError "entities_unique_name"),
     Sample.after_add (Sample.in_namespace "a" "x") "uuid-1").
Proof. reflexivity. Qed.

(** An empty uid is falsy: no conflict is raised, the row goes in under the
    generated id. *)
Example empty_uid_is_no_conflict :
  let request := Sample.component (Sample.meta (Some "a") None None (Some "")) in
  Database.addOrUpdateEntity request "uuid-1" Sample.empty_db
  = (Ok (entityDbToResponse (entityRequestToDb request "uuid-1")),
     with_entity Sample.empty_db (entityRequestToDb request "uuid-1")).
Proof. reflexivity. Qed.

(** X1. The update path: when a row has the non-empty uid of the request,
    the row built from the request has that id too and is inserted, not
    updated, so the store refuses it and nothing is written. The error is
    that of the unique index when a stored row also has the non-NULL name
    and namespace of the request, and that of the primary key otherwise. *)
Lemma addOrUpdateEntity_existing_uid_refused (request : DbEntityRequest)
    (uuid u : string) (db : Db) :
  Database.request_uid request = Some u ->
  u <> "" ->
  existsb (fun r => row_id r =? u) (entities_table db) = true ->
  row_id (entityRequestToDb request uuid) = u /\
  Database.addOrUpdateEntity request uuid db
  = (Err (ConstraintError
            (if existsb (same_name_namespace (entityRequestToDb request uuid))
                  (entities_table db)
             then "entities_unique_name" else "entities_pkey")), db).
Proof.
  intros Hu Hne Hex.
  assert (truthy_string (Database.request_uid request) = Some u) as Ht
    by (apply truthy_string_Some; now split).
  split.
  - now rewrite row_id_of_request, Ht.
  - rewrite addOrUpdateEntity_cases. cbv zeta. now rewrite Ht, Hex.
Qed.

Lemma addOrUpdateEntity_existing_uid_refused_witness :
  (row_id (entityRequestToDb
             (Sample.component
                (Sample.meta (Some "a") (Some "x") None (Some "uuid-1")))
             "uuid-2") = "uuid-1" /\
   Database.addOrUpdateEntity
     (Sample.component
        (Sample.meta (Some "a") (Some "x") None (Some "uuid-1")))
     "uuid-2" (Sample.after_add (Sample.in_namespace "a" "x") "uuid-1")
   = (Err (ConstraintError "entities_unique_name"),
      Sample.after_add (Sample.in_namespace "a" "x") "uuid-1")) /\
  (row_id (entityRequestToDb
             (Sample.component
                (Sample.meta (Some "b") (Some "x") None (Some "uuid-1")))
             "uuid-2") = "uuid-1" /\
   Database.addOrUpdateEntity
     (Sample.component
        (Sample.meta (Some "b") (Some "x") None (Some "uuid-1")))
     "uuid-2" (Sample.after_add (Sample.in_namespace "a" "x") "uuid-1")
   = (Err (ConstraintError "entities_pkey"),
      Sample.after_add (Sample.in_namespace "a" "x") "uuid-1")).
Proof.
  split.
  - exact (addOrUpdateEntity_existing_uid_refused
             (Sample.component
                (Sample.meta (Some "a") (Some "x") None (Some "uuid-1")))
             "uuid-2" "uuid-1"
             (Sample.after_add (Sample.in_namespace "a" "x") "uuid-1")
             eq_refl ltac:(discriminate) eq_refl).
  - exact (addOrUpdateEntity_existing_uid_refused
             (Sample.component
                (Sample.meta (Some "b") (Some "x") None (Some "uuid-1")))
             "uuid-2" "uuid-1"
             (Sample.after_add (Sample.in_namespace "a" "x") "uuid-1")
             eq_refl ltac:(discriminate) eq_refl).
Defined.

(** C3 (as stated) fails: without a uid, at a second
    [{ name: 'a', namespace: 'x' }] the insert is refused by the unique
    index; with the empty uid [''], that no row has, there is no conflict;
    with the uid of a stored row, the insert is refused by the primary
    key. *)
Lemma C3_conflict_or_insert_counterexample :
  ~ conflict_or_insert (Sample.in_namespace "a" "x") "uuid-2"
      (Sample.after_add (Sample.in_namespace "a" "x") "uuid-1") /\
  ~ conflict_or_insert
      (Sample.component (Sample.meta (Some "a") None None (Some "")))
      "uuid-1" Sample.empty_db /\
  ~ conflict_or_insert
      (Sample.component (Sample.meta (Some "a") None None (Some "uuid-1")))
      "uuid-2" (Sample.after_add (Sample.named "a") "uuid-1").
Proof.
  repeat split; intros H; vm_compute in H.
  - discriminate.
  - destruct H as [msg H]. discriminate.
  - discriminate.
Qed.

(** ** C10: uid and generation come from the row's columns *)

(** C10. The metadata blob of the row built from any request, when there is
    one, has neither a uid nor a generation, whatever the client sent, so the envelope read from that row has the row's
    id as [metadata.uid] and the row's generation as
    [metadata.generation]. *)
Theorem C10_uid_generation_from_columns (request : DbEntityRequest)
    (uuid : string) :
  let row := entityRequestToDb request uuid in
  let blob := option_map JSON_parse (row_metadata row) in
  let read := resp_entity (entityDbToResponse row) in
  opt_chain md_uid blob = None /\
  opt_chain md_generation blob = None /\
  opt_chain md_uid (metadata read) = Some (row_id row) /\
  opt_chain md_generation (metadata read) = Some (row_generation row).
Proof.
  destruct request as [l [av k [m|] s]]; cbn; repeat split.
Qed.

(** The delete matters: a blob that did carry a uid or a generation would
    override the columns on read, the blob being spread last. *)
Example blob_uid_would_override :
  let row :=
    {| row_id := "row-id"; row_generation := 3; row_locationId := None;
       row_apiVersion := "v1"; row_kind := "Component";
       row_name := Some "a"; row_namespace := None;
       row_metadata :=
         Some (JsonText (Sample.meta (Some "a") None (Some 9) (Some "other")));
       row_spec := None |} in
  opt_chain md_uid (metadata (resp_entity (entityDbToResponse row)))
  = Some "other" /\
  opt_chain md_generation (metadata (resp_entity (entityDbToResponse row)))
  = Some 9.
Proof. split; reflexivity. Qed.

(** Whatever [addOrUpdateEntity] writes is the row built from the request,
    and whatever it returns is that row read back. *)
Lemma addOrUpdateEntity_Ok (request : DbEntityRequest) (uuid : string)
    (db db' : Db) (resp : DbEntityResponse) :
  Database.addOrUpdateEntity request uuid db = (Ok resp, db') ->
  db' = with_entity db (entityRequestToDb request uuid) /\
  resp = entityDbToResponse (entityRequestToDb request uuid).
Proof.
  rewrite addOrUpdateEntity_cases. cbv zeta.
  destruct (truthy_string (Database.request_uid request)).
  - destruct (existsb _ _); discriminate.
  - destruct (entities_unique_name_taken _ _); [discriminate|].
    destruct (entities_pkey_taken _ _); [discriminate|].
    intros E. inversion E. split; reflexivity.
Qed.

(** A call that throws leaves the store it found. *)
Lemma addOrUpdateEntity_failure_cases (request : DbEntityRequest)
    (uuid : string) (db db' : Db) (e : error) :
  Database.addOrUpdateEntity request uuid db = (Err e, db') -> db' = db.
Proof.
  rewrite addOrUpdateEntity_cases. cbv zeta.
  destruct (truthy_string (Database.request_uid request)).
  - destruct (existsb _ _); intros E; now inversion E.
  - destruct (_ || _); intros E; now inversion E.
Qed.

(** ** C6: addLocation is idempotent by target *)

Lemma select_by_target (t : string) (rows : list DbLocationsRow) :
  filter (where_ location_column [("target", SqlText t)]) rows =
  filter (fun r => loc_target r =? t) rows.
Proof. apply filter_ext_eq. intros r. apply where_target_location. Qed.

Lemma select_location_by_id (u : string) (rows : list DbLocationsRow) :
  filter (where_ location_column [("id", SqlText u)]) rows =
  filter (fun r => loc_id r =? u) rows.
Proof. apply filter_ext_eq. intros r. apply where_id_location. Qed.

(** C6. If a row with the target of the input exists, [addLocation] returns
    the first such row and leaves the store as it is; and once a call of
    [addLocation] returned, every further call with the same target returns
    that same row (hence the same id) and writes nothing. *)
Theorem C6_addLocation_idempotent (location : AddDatabaseLocation)
    (uuid : string) (db : Db) :
  (forall existing rest,
     filter (fun r => loc_target r =? add_target location)
       (locations_table db) = existing :: rest ->
     Database.addLocation location uuid db = (Ok (Some existing), db)) /\
  (forall first db1,
     Database.addLocation location uuid db = (Ok first, db1) ->
     (exists row, first = Some row /\
                  loc_target row = add_target location) /\
     forall again uuid2,
       add_target again = add_target location ->
       Database.addLocation again uuid2 db1 = (Ok first, db1)).
Proof.
  split.
  - intros existing rest Hsel.
    unfold Database.addLocation, transaction, bind, select_locations.
    rewrite select_by_target, Hsel. reflexivity.
  - intros first db1.
    unfold Database.addLocation, transaction, bind.
    unfold select_locations at 1.
    rewrite select_by_target.
    destruct (filter (fun r => loc_target r =? add_target location)
                (locations_table db)) as [|existing rest] eqn:Hsel.
    + unfold insert_location.
      destruct (locations_pkey_taken _ _) eqn:Hp; [discriminate|].
      unfold select_locations, ret; cbn [locations_table loc_id].
      rewrite select_location_by_id, filter_app.
      unfold locations_pkey_taken in Hp. cbn [loc_id] in Hp.
      apply filter_nil_existsb in Hp. rewrite Hp.
      cbn [filter app loc_id hd_error]. rewrite String.eqb_refl.
      cbn [hd_error]. intros E; inversion E; subst first db1; clear E.
      split; [eexists; split; reflexivity|].
      intros again uuid2 Ht.
      unfold select_locations. cbn [locations_table].
      rewrite select_by_target, Ht, filter_app, Hsel.
      cbn [filter app loc_target]. rewrite String.eqb_refl. reflexivity.
    + unfold ret. intros E; inversion E; subst first db1; clear E.
      split.
      * exists existing. split; [reflexivity|].
        assert (In existing (existing :: rest)) as Hin by (left; reflexivity).
        rewrite <- Hsel in Hin. apply filter_In in Hin as [_ Hin].
        now apply String.eqb_eq.
      * intros again uuid2 Ht.
        unfold select_locations. rewrite select_by_target, Ht, Hsel.
        reflexivity.
Qed.

Lemma C6_addLocation_idempotent_witness :
  let first :=
    {| loc_id := "uuid-1"; loc_type := "github";
       loc_target := "https://example.com/a.yaml" |} in
  let db1 := snd (Database.addLocation Sample.github "uuid-1" Sample.empty_db) in
  Database.addLocation Sample.github "uuid-1" Sample.empty_db
  = (Ok (Some first), db1) /\
  Database.addLocation Sample.github "uuid-2" db1 = (Ok (Some first), db1).
Proof.
  cbv zeta. split; [reflexivity|].
  apply (proj2 (C6_addLocation_idempotent Sample.github "uuid-1"
                  Sample.empty_db)
           (Some {| loc_id := "uuid-1"; loc_type := "github";
                    loc_target := "https://example.com/a.yaml" |})
           (snd (Database.addLocation Sample.github "uuid-1" Sample.empty_db))
           eq_refl).
  reflexivity.
Defined.

(** ** C8: entity fails exactly when the match is not unique *)

Lemma entity_select (name : string) (namespace : option string) (db : Db) :
  Database.entity name namespace db =
  match filter (names_row name namespace) (entities_table db) with
  | [item] => (Ok (entityDbToResponse item), db)
  | _ => (Err (NotFoundError (Database.not_found_component name namespace)),
          db)
  end.
Proof.
  unfold Database.entity, bind, select_entities.
  rewrite (filter_ext_eq _ _ _ (where_name_namespace name namespace)).
  destruct (filter (names_row name namespace) (entities_table db))
    as [|item [|second rest]]; reflexivity.
Qed.

(** C8. [entity(name, namespace)] fails with the NotFound error exactly when
    the number of rows with that name and namespace is not one (none, or
    more than one), and returns the one matching entity otherwise; it never
    changes the store. *)
Theorem C8_entity_not_found_iff_not_one (name : string)
    (namespace : option string) (db : Db) :
  let found := filter (names_row name namespace) (entities_table db) in
  (Database.entity name namespace db
   = (Err (NotFoundError (Database.not_found_component name namespace)), db)
   <-> length found <> 1%nat) /\
  (length found = 1%nat ->
   exists item,
     found = [item] /\
     Database.entity name namespace db = (Ok (entityDbToResponse item), db)).
Proof.
  cbv zeta. rewrite entity_select.
  destruct (filter (names_row name namespace) (entities_table db))
    as [|item [|second rest]]; cbn [length]; split.
  - split; [intros _; discriminate | reflexivity].
  - discriminate.
  - split; [discriminate | intros H; now contradiction H].
  - intros _. exists item. split; reflexivity.
  - split; [intros _; discriminate | reflexivity].
  - discriminate.
Qed.

Lemma C8_entity_not_found_iff_not_one_witness :
  Database.entity "a" None Sample.empty_db
  = (Err (NotFoundError "Found no component with name a, namespace <null>"),
     Sample.empty_db) /\
  exists item,
    filter (names_row "a" None)
      (entities_table (Sample.after_add (Sample.named "a") "uuid-1"))
    = [item] /\
    Database.entity "a" None (Sample.after_add (Sample.named "a") "uuid-1")
    = (Ok (entityDbToResponse item),
       Sample.after_add (Sample.named "a") "uuid-1").
Proof.
  split.
  - apply (proj1 (C8_entity_not_found_iff_not_one "a" None Sample.empty_db)).
    discriminate.
  - apply (proj2 (C8_entity_not_found_iff_not_one "a" None
                    (Sample.after_add (Sample.named "a") "uuid-1"))).
    reflexivity.
Defined.

(** ** C9: removeLocation *)

Lemma Db_eta (db : Db) :
  {| locations_table := locations_table db;
     entities_table := entities_table db |} = db.
Proof. now destruct db. Qed.

Lemma filter_negb_all {A : Type} (f : A -> bool) (l : list A) :
  filter f l = [] -> filter (fun x => negb (f x)) l = l.
Proof.
  induction l as [|x l IH]; [reflexivity|]. cbn.
  destruct (f x); cbn; [discriminate|]. intros H. now rewrite IH.
Qed.

(** What is left of the store once the location rows of [id] are gone. *)
Lemma removeLocation_cases (id : string) (db : Db) :
  Database.removeLocation id db =
  match filter (fun r => loc_id r =? id) (locations_table db) with
  | [] => (Err (NotFoundError (Database.not_found_location id)), db)
  | _ :: _ =>
      (Ok tt,
       {| locations_table :=
            filter (fun r => negb (loc_id r =? id)) (locations_table db);
          entities_table := entities_table db |})
  end.
Proof.
  unfold Database.removeLocation, bind, del_locations.
  rewrite select_location_by_id.
  rewrite (filter_ext_eq
             (fun r => negb (where_ location_column [("id", SqlText id)] r))
             (fun r => negb (loc_id r =? id))
             _ (fun r => f_equal negb (where_id_location id r))).
  destruct (filter (fun r => loc_id r =? id) (locations_table db))
    as [|r rest] eqn:Hf; cbn [length].
  - unfold throw. rewrite (filter_negb_all _ _ Hf), Db_eta. reflexivity.
  - reflexivity.
Qed.

(** C9. [removeLocation(id)] fails with the NotFound error exactly when no
    location row has that id, the store then being unchanged; otherwise it
    raises nothing and the store no longer has a location row of that id,
    every other row being kept. *)
Theorem C9_removeLocation_not_found_iff_unknown (id : string) (db : Db) :
  let known := existsb (fun r => loc_id r =? id) (locations_table db) in
  (Database.removeLocation id db
   = (Err (NotFoundError (Database.not_found_location id)), db)
   <-> known = false) /\
  (known = true ->
   Database.removeLocation id db
   = (Ok tt,
      {| locations_table :=
           filter (fun r => negb (loc_id r =? id)) (locations_table db);
         entities_table := entities_table db |})).
Proof.
  cbv zeta. rewrite removeLocation_cases.
  destruct (filter (fun r => loc_id r =? id) (locations_table db))
    as [|r rest] eqn:Hf.
  - apply filter_nil_existsb in Hf. rewrite Hf. split.
    + split; reflexivity.
    + discriminate.
  - apply filter_cons_existsb in Hf. rewrite Hf. split.
    + split; discriminate.
    + reflexivity.
Qed.

Lemma C9_removeLocation_not_found_iff_unknown_witness :
  let db1 := snd (Database.addLocation Sample.github "uuid-1" Sample.empty_db) in
  Database.removeLocation "uuid-9" db1
  = (Err (NotFoundError "Found no location with ID uuid-9"), db1) /\
  Database.removeLocation "uuid-1" db1 = (Ok tt, Sample.empty_db).
Proof.
  cbv zeta. split.
  - apply (proj1 (C9_removeLocation_not_found_iff_unknown "uuid-9"
                    (snd (Database.addLocation Sample.github "uuid-1"
                            Sample.empty_db)))).
    reflexivity.
  - apply (proj2 (C9_removeLocation_not_found_iff_unknown "uuid-1"
                    (snd (Database.addLocation Sample.github "uuid-1"
                            Sample.empty_db)))).
    reflexivity.
Defined.

(** ** C7: the order of entities() *)

Section StableSort.

Context {R : Type} (le : R -> R -> bool).

Lemma insert_by_perm (x : R) (l : list R) :
  Permutation (x :: l) (insert_by le x l).
Proof.
  induction l as [|y l IH]; cbn; [constructor; constructor|].
  destruct (le x y); [apply Permutation_refl|].
  eapply perm_trans; [apply perm_swap|]. now constructor.
Qed.

Lemma sort_by_perm (l : list R) : Permutation l (sort_by le l).
Proof.
  induction l as [|x l IH]; cbn; [constructor|].
  eapply perm_trans; [|apply insert_by_perm]. now constructor.
Qed.

(** Sorting keeps the order in which the rows of one class are stored,
    when a row is never put behind a row of its class. *)
Lemma insert_by_filter (p : R -> bool) (x : R) (l : list R) :
  (forall y, p x = true -> le x y = false -> p y = false) ->
  filter p (insert_by le x l) = filter p (x :: l).
Proof.
  intros Hp. induction l as [|y l IH]; [reflexivity|].
  cbn [insert_by]. destruct (le x y) eqn:E; [reflexivity|].
  cbn [filter] in *. destruct (p x) eqn:Px.
  - rewrite (Hp y eq_refl E), IH. reflexivity.
  - rewrite IH. reflexivity.
Qed.

Lemma sort_by_filter (p : R -> bool) (l : list R) :
  (forall x y, p x = true -> le x y = false -> p y = false) ->
  filter p (sort_by le l) = filter p l.
Proof.
  intros Hp. induction l as [|x l IH]; [reflexivity|].
  cbn [sort_by fold_right]. fold (sort_by le l).
  rewrite insert_by_filter by (apply Hp).
  cbn [filter]. now rewrite IH.
Qed.

End StableSort.

Section SortedInsert.

Context {R : Type} (le : R -> R -> bool).
Hypothesis le_total : forall a b, le a b = false -> le b a = true.

Lemma insert_by_sortedb (x : R) (l : list R) :
  sortedb le l = true -> sortedb le (insert_by le x l) = true.
Proof.
  induction l as [|y l IH]; [reflexivity|].
  intros Hs. cbn [insert_by]. destruct (le x y) eqn:Exy.
  - cbn [sortedb] in *. now rewrite Exy, Hs.
  - assert (sortedb le l = true) as Hl.
    { cbn [sortedb] in Hs. destruct l as [|z l']; [reflexivity|].
      now apply andb_prop in Hs as [_ Hs]. }
    specialize (IH Hl). cbn [sortedb].
    destruct (insert_by le x l) as [|h t] eqn:Hins; [reflexivity|].
    rewrite IH, andb_true_r.
    destruct l as [|z l']; cbn [insert_by] in Hins.
    + inversion Hins; subst. now apply le_total.
    + destruct (le x z); inversion Hins; subst.
      * now apply le_total.
      * cbn [sortedb] in Hs. now apply andb_prop in Hs as [Hs _].
Qed.

Lemma sort_by_sortedb (l : list R) : sortedb le (sort_by le l) = true.
Proof.
  induction l as [|x l IH]; [reflexivity|].
  cbn [sort_by fold_right]. fold (sort_by le l).
  now apply insert_by_sortedb.
Qed.

End SortedInsert.

Lemma sql_le_total (a b : sqlvalue) : sql_le a b = false -> sql_le b a = true.
Proof.
  destruct a as [|s|x], b as [|t|y]; cbn; try reflexivity; try discriminate.
  - intros H. destruct (String.leb_total s t) as [E|E]; congruence.
  - intros H. apply Z.leb_gt in H. apply Z.leb_le. lia.
Qed.

(** The query of [entities()] orders by the namespace alone: ['name'] is
    passed where Knex takes the direction, and a direction that is neither
    asc nor desc is read as asc. *)
Lemma entities_orders_by_namespace_alone (db : Db) :
  direction "name" = "asc" /\
  Database.entities db
  = (Ok (map entityDbToResponse (sort_by namespace_le (entities_table db))),
     db).
Proof. split; reflexivity. Qed.

Lemma sql_le_refl (v : sqlvalue) : sql_le v v = true.
Proof.
  destruct v as [|s|n]; cbn; [reflexivity| |apply Z.leb_refl].
  now destruct (String.leb_total s s).
Qed.

(** X2. [entities()] returns every stored entity once, in ascending order
    of the namespace column (a NULL namespace first), and the entities of
    one namespace in the order in which they are stored, whatever their
    names. *)
Lemma entities_all_in_store_order (db : Db) (namespace : option string) :
  exists rows,
    Database.entities db = (Ok (map entityDbToResponse rows), db) /\
    Permutation (entities_table db) rows /\
    sortedb namespace_le rows = true /\
    filter (fun r => sql_matches (of_nullable namespace)
                       (of_nullable (row_namespace r))) rows
    = filter (fun r => sql_matches (of_nullable namespace)
                         (of_nullable (row_namespace r))) (entities_table db).
Proof.
  exists (sort_by namespace_le (entities_table db)). repeat split.
  - apply sort_by_perm.
  - apply sort_by_sortedb. intros a b. apply sql_le_total.
  - apply sort_by_filter. intros x y Hx Hle.
    destruct (sql_matches _ (of_nullable (row_namespace y))) eqn:Hy;
      [|reflexivity].
    unfold namespace_le in Hle.
    assert (of_nullable (row_namespace x) = of_nullable (row_namespace y))
      as E.
    { destruct namespace as [ns|], (row_namespace x) as [a|],
        (row_namespace y) as [b|]; cbn in Hx, Hy; try discriminate;
        try reflexivity.
      apply String.eqb_eq in Hx, Hy. congruence. }
    rewrite E, sql_le_refl in Hle. discriminate.
Qed.

(** C7 (the code departs from it). With [b] and then [a] stored in one
    namespace [x], [entities()] returns [b] before [a]: the result is in
    namespace order and holds every entity, but it is not sorted by the
    pair (namespace, name). *)
Theorem C7_entities_not_sorted_by_name :
  let b := entityDbToResponse
             (entityRequestToDb (Sample.in_namespace "b" "x") "uuid-1") in
  let a := entityDbToResponse
             (entityRequestToDb (Sample.in_namespace "a" "x") "uuid-2") in
  Database.entities b_then_a = (Ok [b; a], b_then_a) /\
  map response_namespace [b; a] = [SqlText "x"; SqlText "x"] /\
  map response_name [b; a] = [SqlText "b"; SqlText "a"] /\
  sortedb namespace_name_le [b; a] = false /\
  sortedb namespace_name_le [a; b] = true.
Proof. repeat split. Qed.

(** ** C4 and C5: the message listener of the login popup *)

Module PopupFacts.

Import OAuthRequestManager.

Lemma accepted_iff (st : PopupState) (ev : MessageEvent) (p : Payload) :
  accepted st ev = Some p <->
  source ev = Some (popup st) /\
  origin ev = Some (trusted st) /\
  event_type ev = Some "oauth-result" /\
  event_payload ev = Some p.
Proof.
  unfold accepted.
  destruct (source ev) as [w|], (origin ev) as [o|],
    (event_type ev) as [t|], (event_payload ev) as [q|];
    try (split; [discriminate | intros (A & B & C & D); discriminate]).
  destruct (Nat.eqb_spec w (popup st)) as [Ew|Ew];
    destruct (String.eqb_spec o (trusted st)) as [Eo|Eo];
    destruct (String.eqb_spec t "oauth-result") as [Et|Et]; cbn;
    (split; [intros E; inversion E; subst; repeat split; congruence
            | intros (A & B & C & D); congruence ]).
Qed.

(** The model replays the tests of the source: the six malformed messages
    leave the call waiting, the valid one resolves it with the very payload
    sent and removes the listener once. *)
Example test_should_show_an_auth_popup :
  fold_left messageListener rejected_by_test Sample.waiting = Sample.waiting /\
  messageListener Sample.waiting (Sample.oauth_result Sample.myPayload)
  = {| popup := 7%nat; trusted := "my-origin";
       result := Resolved Sample.myPayload;
       listenersAdded := 1%nat; listenersRemoved := 1%nat; polling := false |}.
Proof. split; reflexivity. Qed.

Example test_should_fail_if_popup_returns_error :
  messageListener Sample.waiting (Sample.oauth_result Sample.nopePayload)
  = {| popup := 7%nat; trusted := "my-origin";
       result := Rejected {| name := "NopeError"; message := "NOPE" |};
       listenersAdded := 1%nat; listenersRemoved := 1%nat; polling := false |}.
Proof. reflexivity. Qed.

Example test_should_fail_if_popup_is_closed :
  pollClosed Sample.waiting false = Sample.waiting /\
  pollClosed (pollClosed Sample.waiting false) true
  = {| popup := 7%nat; trusted := "my-origin";
       result := Rejected {| name := "Error";
                             message := "Login failed, popup was closed" |};
       listenersAdded := 1%nat; listenersRemoved := 1%nat; polling := false |}.
Proof. split; reflexivity. Qed.

(** C4. A message that lacks any one of: the popup as its source, the
    trusted origin as its origin, ["oauth-result"] as its [data.type], a
    [data.payload], leaves the state of the call as it is: the result is
    not settled, the listener stays, the polling goes on. *)
Theorem C4_unaccepted_message_is_ignored (st : PopupState)
    (ev : MessageEvent) :
  source ev <> Some (popup st) \/
  origin ev <> Some (trusted st) \/
  event_type ev <> Some "oauth-result" \/
  event_payload ev = None ->
  messageListener st ev = st.
Proof.
  intros H. unfold messageListener.
  destruct (result st); try reflexivity.
  destruct (accepted st ev) as [p|] eqn:Hacc; [|reflexivity].
  apply accepted_iff in Hacc as (A & B & C & D).
  destruct H as [H|[H|[H|H]]]; congruence.
Qed.

Lemma C4_unaccepted_message_is_ignored_witness :
  messageListener Sample.waiting
    (Sample.event (Some 7%nat) (Some "other-origin")
       (Some {| data_type := Some "oauth-result";
                data_payload := Some Sample.myPayload |}))
  = Sample.waiting.
Proof.
  apply C4_unaccepted_message_is_ignored.
  right; left. discriminate.
Defined.

(** C5. On a message that is accepted while the result is pending: if the
    payload has an error, the result rejects with an error of the name and
    message of [payload.error]; if it has none, the result resolves with
    the payload itself, the same object, unchanged. *)
Theorem C5_accepted_message_settles (st : PopupState) (ev : MessageEvent)
    (p : Payload) :
  result st = Pending ->
  source ev = Some (popup st) ->
  origin ev = Some (trusted st) ->
  event_type ev = Some "oauth-result" ->
  event_payload ev = Some p ->
  match payload_error p with
  | Some e =>
      exists err,
        result (messageListener st ev) = Rejected err /\
        name err = error_name e /\
        message err = error_message e
  | None => result (messageListener st ev) = Resolved p
  end.
Proof.
  intros Hpending Hs Ho Ht Hp.
  assert (accepted st ev = Some p) as Hacc
    by (apply accepted_iff; repeat split; assumption).
  unfold messageListener. rewrite Hpending, Hacc.
  destruct (payload_error p) as [e|]; cbn.
  - eexists. repeat split.
  - reflexivity.
Qed.

Lemma C5_accepted_message_settles_witness :
  (exists err,
     result (messageListener Sample.waiting
               (Sample.oauth_result Sample.nopePayload)) = Rejected err /\
     name err = "NopeError" /\ message err = "NOPE") /\
  result (messageListener Sample.waiting
            (Sample.oauth_result Sample.myPayload))
  = Resolved Sample.myPayload.
Proof.
  split.
  - apply (C5_accepted_message_settles Sample.waiting
             (Sample.oauth_result Sample.nopePayload) Sample.nopePayload);
      reflexivity.
  - apply (C5_accepted_message_settles Sample.waiting
             (Sample.oauth_result Sample.myPayload) Sample.myPayload);
      reflexivity.
Defined.

End PopupFacts.

(** * Further properties of the facade *)

(** ** Keys and unique indexes *)

Section DistinctBy.

Context {A : Type} (same : A -> A -> bool).

Lemma distinct_by_snoc (l : list A) (x : A) :
  distinct_by same (l ++ [x]) =
  distinct_by same l && negb (existsb (fun y => same y x) l).
Proof.
  induction l as [|y l IH]; [reflexivity|].
  cbn [app distinct_by existsb]. rewrite IH, existsb_app. cbn [existsb].
  rewrite orb_false_r.
  destruct (existsb (same y) l), (same y x), (distinct_by same l),
    (existsb (fun z => same z x) l); reflexivity.
Qed.

Lemma existsb_filter_false (f p : A -> bool) (l : list A) :
  existsb f l = false -> existsb f (filter p l) = false.
Proof.
  rewrite !existsb_false_In. intros H x Hx.
  apply filter_In in Hx as [Hx _]. now apply H.
Qed.

Lemma distinct_by_filter (p : A -> bool) (l : list A) :
  distinct_by same l = true -> distinct_by same (filter p l) = true.
Proof.
  induction l as [|x l IH]; [reflexivity|].
  cbn [distinct_by filter]. intros H. apply andb_prop in H as [Hx Hl].
  destruct (p x); [|now apply IH].
  cbn [distinct_by]. rewrite (IH Hl), andb_true_r.
  apply negb_true_iff in Hx. apply negb_true_iff.
  now apply existsb_filter_false.
Qed.

(** In a list without two [same] elements, at most one element is the same
    as a given one, when being the same is an equivalence on that class. *)
Lemma distinct_by_filter_le_one (p : A -> bool) (l : list A) :
  (forall x y, p x = true -> p y = true -> same x y = true) ->
  distinct_by same l = true ->
  (length (filter p l) <= 1)%nat.
Proof.
  intros Hp. induction l as [|x l IH]; [cbn; lia|].
  cbn [distinct_by filter]. intros H. apply andb_prop in H as [Hx Hl].
  specialize (IH Hl). destruct (p x) eqn:Px; [|exact IH].
  cbn [length]. apply negb_true_iff in Hx.
  rewrite existsb_false_In in Hx.
  destruct (filter p l) as [|y rest] eqn:Hf; [cbn; lia|].
  assert (In y (filter p l)) as Hy by (rewrite Hf; left; reflexivity).
  apply filter_In in Hy as [Hy Py].
  specialize (Hx y Hy). rewrite (Hp x y Px Py) in Hx. discriminate.
Qed.

End DistinctBy.

Lemma same_name_namespace_sym (a b : DbEntitiesRow) :
  same_name_namespace a b = same_name_namespace b a.
Proof.
  unfold same_name_namespace.
  destruct (row_name a), (row_namespace a), (row_name b), (row_namespace b);
    try reflexivity.
  now rewrite (String.eqb_sym s s1), (String.eqb_sym s0 s2).
Qed.

(** ** addOrUpdateEntity: what it keeps and what it refuses *)

(** X3. [addOrUpdateEntity] keeps the primary key and the unique index of
    the entities table: if no two rows share an id, and no two rows share a
    non-NULL name and namespace, the same is true of the store the call
    leaves behind, whether it succeeded or threw. *)
Theorem addOrUpdateEntity_keeps_constraints (request : DbEntityRequest)
    (uuid : string) (db : Db) :
  entities_pkey db = true ->
  entities_unique_name db = true ->
  let db' := snd (Database.addOrUpdateEntity request uuid db) in
  entities_pkey db' = true /\ entities_unique_name db' = true.
Proof.
  intros Hk Hu. cbv zeta. rewrite addOrUpdateEntity_cases. cbv zeta.
  destruct (truthy_string (Database.request_uid request)).
  { destruct (existsb _ _); cbn [snd]; now split. }
  destruct (entities_unique_name_taken _ _) eqn:Hq; [cbn [snd]; now split|].
  destruct (entities_pkey_taken _ _) eqn:Hp; [cbn [snd]; now split|].
  cbn [snd orb]. unfold entities_pkey, entities_unique_name, with_entity.
  cbn [entities_table]. rewrite !distinct_by_snoc. split.
  - unfold entities_pkey in Hk. rewrite Hk.
    unfold entities_pkey_taken in Hp. unfold same_entity_id.
    now rewrite Hp.
  - unfold entities_unique_name in Hu. rewrite Hu. cbn [andb].
    apply negb_true_iff. unfold entities_unique_name_taken in Hq.
    rewrite existsb_false_In in *. intros r Hr.
    rewrite same_name_namespace_sym. now apply Hq.
Qed.

Lemma addOrUpdateEntity_keeps_constraints_witness :
  entities_pkey
    (snd (Database.addOrUpdateEntity (Sample.in_namespace "b" "x") "uuid-3"
            small_db)) = true /\
  entities_unique_name
    (snd (Database.addOrUpdateEntity (Sample.in_namespace "b" "x") "uuid-3"
            small_db)) = true.
Proof.
  apply (addOrUpdateEntity_keeps_constraints (Sample.in_namespace "b" "x")
           "uuid-3" small_db); reflexivity.
Defined.

(** X4. When [addOrUpdateEntity] throws, nothing was written: the store is
    the one the call started from. What it throws is the conflict error or
    an error of the store's constraints; the re-read of the inserted row
    never comes back empty. *)
Theorem addOrUpdateEntity_failure_writes_nothing (request : DbEntityRequest)
    (uuid : string) (db db' : Db) (e : error) :
  Database.addOrUpdateEntity request uuid db = (Err e, db') ->
  db' = db /\
  (e = ConflictError "Unexpected uid for new entity" \/
   e = ConstraintError "entities_pkey" \/
   e = ConstraintError "entities_unique_name").
Proof.
  rewrite addOrUpdateEntity_cases. cbv zeta.
  destruct (truthy_string (Database.request_uid request)).
  - destruct (existsb _ _); [destruct (entities_unique_name_taken _ _)|];
      intros E; inversion E; auto.
  - destruct (entities_unique_name_taken _ _), (entities_pkey_taken _ _);
      intros E; inversion E; auto.
Qed.

Lemma addOrUpdateEntity_failure_writes_nothing_witness :
  Database.addOrUpdateEntity (Sample.in_namespace "a" "x") "uuid-3" small_db
  = (Err (ConstraintError "entities_unique_name"), small_db) /\
  (small_db = small_db /\
   (ConstraintError "entities_unique_name"
    = ConflictError "Unexpected uid for new entity" \/
    ConstraintError "entities_unique_name" = ConstraintError "entities_pkey" \/
    ConstraintError "entities_unique_name"
    = ConstraintError "entities_unique_name")).
Proof.
  split; [reflexivity|].
  apply (addOrUpdateEntity_failure_writes_nothing
           (Sample.in_namespace "a" "x") "uuid-3" small_db).
  reflexivity.
Defined.

(** X5. Once a row of the store has a name and a non-empty namespace, no
    request with that name and namespace gets through [addOrUpdateEntity]:
    whatever its uid and whatever id is generated, the call throws and the
    store stays as it is. *)
Theorem addOrUpdateEntity_name_taken_fails (request : DbEntityRequest)
    (uuid n ns : string) (m : Metadata) (db : Db) :
  metadata (req_entity request) = Some m ->
  md_name m = Some n ->
  md_namespace m = Some ns ->
  n <> "" ->
  ns <> "" ->
  existsb (names_row n (Some ns)) (entities_table db) = true ->
  exists e, Database.addOrUpdateEntity request uuid db = (Err e, db).
Proof.
  intros Hm Hn Hns Hne Hnse Hex.
  rewrite addOrUpdateEntity_cases. cbv zeta.
  destruct (truthy_string (Database.request_uid request)) as [u|].
  { destruct (existsb (fun r => row_id r =? u) (entities_table db));
      eexists; reflexivity. }
  set (newRow := entityRequestToDb request uuid).
  assert (entities_unique_name_taken newRow (entities_table db) = true) as ->;
    [|eexists; reflexivity].
  apply existsb_exists in Hex as [r [Hr Hmatch]].
  unfold entities_unique_name_taken. apply existsb_exists. exists r.
  split; [exact Hr|].
  apply (names_row_collides newRow r n ns); try assumption.
  - unfold newRow, entityRequestToDb; cbn. rewrite Hm; cbn. rewrite Hn.
    apply truthy_string_Some. now split.
  - unfold newRow, entityRequestToDb; cbn. rewrite Hm; cbn. rewrite Hns.
    apply truthy_string_Some. now split.
Qed.

Lemma addOrUpdateEntity_name_taken_fails_witness :
  exists e,
    Database.addOrUpdateEntity (Sample.in_namespace "a" "x") "uuid-3" small_db
    = (Err e, small_db).
Proof.
  apply (addOrUpdateEntity_name_taken_fails (Sample.in_namespace "a" "x")
           "uuid-3" "a" "x" (Sample.meta (Some "a") (Some "x") None None)
           small_db); try reflexivity; discriminate.
Defined.

(** ** Reading entities *)

(** X6. What [addOrUpdateEntity] returns carries the labels and the
    annotations of the request unchanged, and its location id, an empty
    location id being dropped; a request without metadata comes back with a
    metadata object that holds the uid and the generation only. *)
Theorem addOrUpdateEntity_returns_rest_of_request (request : DbEntityRequest)
    (uuid : string) (db db' : Db) (resp : DbEntityResponse) :
  Database.addOrUpdateEntity request uuid db = (Ok resp, db') ->
  let sent := metadata (req_entity request) in
  let got := metadata (resp_entity resp) in
  opt_chain md_labels got = opt_chain md_labels sent /\
  opt_chain md_annotations got = opt_chain md_annotations sent /\
  resp_locationId resp = truthy_string (req_locationId request) /\
  (sent = None ->
   got = Some {| md_uid := Some uuid; md_generation := Some 1;
                 md_name := None; md_namespace := None;
                 md_labels := None; md_annotations := None |}).
Proof.
  intros Hadd. apply addOrUpdateEntity_Ok in Hadd as [_ ->]. cbv zeta.
  destruct request as [l [av k [[u g n ns lb an]|] s]]; cbn.
  - repeat split; [now destruct lb | now destruct an
                  | apply truthy_string_idem | discriminate].
  - repeat split. apply truthy_string_idem.
Qed.

Lemma addOrUpdateEntity_returns_rest_of_request_witness :
  let request :=
    {| req_locationId := Some "";
       req_entity := {| apiVersion := "v1"; kind := "Component";
                        metadata := None; spec := None |} |} in
  let resp := entityDbToResponse (entityRequestToDb request "uuid-3") in
  opt_chain md_labels (metadata (resp_entity resp)) = None /\
  opt_chain md_annotations (metadata (resp_entity resp)) = None /\
  resp_locationId resp = None /\
  (@None Metadata = None ->
   metadata (resp_entity resp)
   = Some {| md_uid := Some "uuid-3"; md_generation := Some 1;
             md_name := None; md_namespace := None;
             md_labels := None; md_annotations := None |}).
Proof.
  cbv zeta.
  apply (addOrUpdateEntity_returns_rest_of_request
           {| req_locationId := Some "";
              req_entity := {| apiVersion := "v1"; kind := "Component";
                               metadata := None; spec := None |} |}
           "uuid-3" small_db
           (with_entity small_db
              (entityRequestToDb
                 {| req_locationId := Some "";
                    req_entity := {| apiVersion := "v1"; kind := "Component";
                                     metadata := None; spec := None |} |}
                 "uuid-3"))).
  reflexivity.
Defined.

Lemma names_row_same (n ns : string) (a b : DbEntitiesRow) :
  ns <> "" ->
  names_row n (Some ns) a = true ->
  names_row n (Some ns) b = true ->
  same_name_namespace a b = true.
Proof.
  intros Hns Ha Hb.
  apply (names_row_collides a b n ns); try assumption.
  - unfold names_row in Ha. destruct (row_name a) as [x|]; [|discriminate].
    apply andb_prop in Ha as [Ha _]. apply String.eqb_eq in Ha. now subst.
  - unfold names_row in Ha. apply andb_prop in Ha as [_ Ha].
    assert (truthy_string (Some ns) = Some ns) as Ht
      by (apply truthy_string_Some; now split).
    rewrite Ht in Ha. destruct (row_namespace a) as [x|]; [|discriminate].
    apply String.eqb_eq in Ha. now subst.
Qed.

(** X7. While the unique index holds, a lookup with a non-empty namespace
    is never ambiguous: [entity(name, namespace)] fails with NotFound exactly
    when no row has that name and namespace, and returns a stored row's
    entity otherwise. *)
Theorem entity_in_namespace_found_iff_stored (n ns : string) (db : Db) :
  entities_unique_name db = true ->
  ns <> "" ->
  (Database.entity n (Some ns) db
   = (Err (NotFoundError (Database.not_found_component n (Some ns))), db)
   <-> existsb (names_row n (Some ns)) (entities_table db) = false) /\
  (existsb (names_row n (Some ns)) (entities_table db) = true ->
   exists item,
     In item (entities_table db) /\
     row_name item = Some n /\
     row_namespace item = Some ns /\
     Database.entity n (Some ns) db = (Ok (entityDbToResponse item), db)).
Proof.
  intros Hu Hns.
  pose proof (distinct_by_filter_le_one same_name_namespace
                (names_row n (Some ns)) (entities_table db)
                (fun a b => names_row_same n ns a b Hns) Hu) as Hle.
  rewrite entity_select.
  destruct (filter (names_row n (Some ns)) (entities_table db))
    as [|item [|second rest]] eqn:Hf; cbn [length] in Hle; [| |lia].
  - apply filter_nil_existsb in Hf. rewrite Hf. split.
    + split; reflexivity.
    + discriminate.
  - pose proof (filter_cons_existsb _ _ _ _ Hf) as Hex. rewrite Hex. split.
    + split; discriminate.
    + intros _. exists item.
      assert (In item [item]) as Hin by (left; reflexivity).
      rewrite <- Hf in Hin. apply filter_In in Hin as [Hin Hm].
      split; [exact Hin|].
      unfold names_row in Hm. apply andb_prop in Hm as [Hm1 Hm2].
      assert (truthy_string (Some ns) = Some ns) as Ht
        by (apply truthy_string_Some; now split).
      rewrite Ht in Hm2.
      destruct (row_name item) as [x|]; [|discriminate].
      destruct (row_namespace item) as [y|]; [|discriminate].
      apply String.eqb_eq in Hm1, Hm2. subst. repeat split.
Qed.

Lemma entity_in_namespace_found_iff_stored_witness :
  Database.entity "b" (Some "x") small_db
  = (Err (NotFoundError "Found no component with name b, namespace x"),
     small_db) /\
  exists item,
    In item (entities_table small_db) /\
    row_name item = Some "a" /\
    row_namespace item = Some "x" /\
    Database.entity "a" (Some "x") small_db
    = (Ok (entityDbToResponse item), small_db).
Proof.
  split.
  - apply (proj1 (entity_in_namespace_found_iff_stored "b" "x" small_db
                    eq_refl ltac:(discriminate))).
    reflexivity.
  - apply (proj2 (entity_in_namespace_found_iff_stored "a" "x" small_db
                    eq_refl ltac:(discriminate))).
    reflexivity.
Defined.

(** X9. A successful [addOrUpdateEntity] does not change what [entity]
    answers for any other name or namespace: if the name asked for is not
    the (truthy) name of the request, or the namespace asked for is not its
    namespace, the lookup gives what it gave before. *)
Theorem addOrUpdateEntity_leaves_other_lookups (request : DbEntityRequest)
    (uuid n : string) (ns : option string) (db db' : Db)
    (resp : DbEntityResponse) :
  Database.addOrUpdateEntity request uuid db = (Ok resp, db') ->
  truthy_string (opt_chain md_name (metadata (req_entity request))) <> Some n \/
  truthy_string (opt_chain md_namespace (metadata (req_entity request)))
  <> truthy_string ns ->
  fst (Database.entity n ns db') = fst (Database.entity n ns db).
Proof.
  intros Hadd Hother. apply addOrUpdateEntity_Ok in Hadd as [-> _].
  rewrite !entity_select. unfold with_entity; cbn [entities_table].
  rewrite filter_app.
  assert (names_row n ns (entityRequestToDb request uuid) = false) as Hno.
  { unfold names_row, entityRequestToDb; cbn [row_name row_namespace].
    destruct (truthy_string (opt_chain md_name _)) as [x|] eqn:Hx;
      [|reflexivity].
    destruct (String.eqb_spec x n) as [->|Hxn]; [|reflexivity].
    destruct Hother as [H|H]; [now contradiction H|]. cbn [andb].
    destruct (truthy_string ns) as [y|],
      (truthy_string (opt_chain md_namespace _)) as [z|];
      try reflexivity; [|now contradiction H].
    destruct (String.eqb_spec z y) as [->|Hzy]; [now contradiction H|].
    reflexivity. }
  cbn [filter]. rewrite Hno, app_nil_r.
  destruct (filter (names_row n ns) (entities_table db))
    as [|item [|second rest]]; reflexivity.
Qed.

Lemma addOrUpdateEntity_leaves_other_lookups_witness :
  fst (Database.entity "a" (Some "x")
         (with_entity small_db
            (entityRequestToDb (Sample.in_namespace "b" "x") "uuid-3")))
  = fst (Database.entity "a" (Some "x") small_db).
Proof.
  apply (addOrUpdateEntity_leaves_other_lookups
           (Sample.in_namespace "b" "x") "uuid-3" "a" (Some "x") small_db _
           (entityDbToResponse
              (entityRequestToDb (Sample.in_namespace "b" "x") "uuid-3"))).
  - reflexivity.
  - left. discriminate.
Defined.

(** X10. After a successful [addOrUpdateEntity], [entities()] lists what it
    listed before and the returned envelope, each once, in some order. *)
Theorem addOrUpdateEntity_then_entities (request : DbEntityRequest)
    (uuid : string) (db db' : Db) (resp : DbEntityResponse) :
  Database.addOrUpdateEntity request uuid db = (Ok resp, db') ->
  exists before after,
    Database.entities db = (Ok before, db) /\
    Database.entities db' = (Ok after, db') /\
    Permutation (resp :: before) after.
Proof.
  intros Hadd. apply addOrUpdateEntity_Ok in Hadd as [-> ->].
  set (newRow := entityRequestToDb request uuid).
  exists (map entityDbToResponse (sort_by namespace_le (entities_table db))).
  exists (map entityDbToResponse
            (sort_by namespace_le (entities_table (with_entity db newRow)))).
  split; [apply entities_orders_by_namespace_alone|].
  split; [apply entities_orders_by_namespace_alone|].
  change (entityDbToResponse newRow
            :: map entityDbToResponse
                 (sort_by namespace_le (entities_table db)))
    with (map entityDbToResponse
            (newRow :: sort_by namespace_le (entities_table db))).
  apply Permutation_map.
  eapply perm_trans; [|apply sort_by_perm].
  unfold with_entity; cbn [entities_table].
  eapply perm_trans; [|apply Permutation_cons_append].
  constructor. apply Permutation_sym, sort_by_perm.
Qed.

Lemma addOrUpdateEntity_then_entities_witness :
  exists before after,
    Database.entities small_db = (Ok before, small_db) /\
    Database.entities
      (with_entity small_db
         (entityRequestToDb (Sample.in_namespace "b" "x") "uuid-3"))
    = (Ok after,
       with_entity small_db
         (entityRequestToDb (Sample.in_namespace "b" "x") "uuid-3")) /\
    Permutation
      (entityDbToResponse
         (entityRequestToDb (Sample.in_namespace "b" "x") "uuid-3") :: before)
      after.
Proof.
  apply (addOrUpdateEntity_then_entities (Sample.in_namespace "b" "x")
           "uuid-3" small_db).
  reflexivity.
Defined.

Lemma truthy_string_not_empty (s : option string) :
  truthy_string s <> Some "".
Proof. destruct s as [[|c r]|]; discriminate. Qed.

(** X11. In the row built from a request, the columns taken through [||]
    never hold a falsy value: the generation is never 0, a name, namespace
    or location id is NULL rather than the empty string, and the id is not
    empty when the generated one is not. The apiVersion and the kind are
    copied as they are, empty or not. *)
Theorem entityRequestToDb_columns_truthy (request : DbEntityRequest)
    (uuid : string) :
  uuid <> "" ->
  let row := entityRequestToDb request uuid in
  row_id row <> "" /\
  row_generation row <> 0 /\
  row_locationId row <> Some "" /\
  row_name row <> Some "" /\
  row_namespace row <> Some "" /\
  row_apiVersion row = apiVersion (req_entity request) /\
  row_kind row = kind (req_entity request).
Proof.
  intros Hu. cbv zeta. unfold entityRequestToDb.
  cbn [row_id row_generation row_locationId row_name row_namespace
       row_apiVersion row_kind].
  repeat split; try apply truthy_string_not_empty.
  - destruct (truthy_string (opt_chain md_uid _)) as [u|] eqn:E;
      [|exact Hu].
    apply truthy_string_Some in E. tauto.
  - destruct (opt_chain md_generation _) as [[|p|p]|]; discriminate.
Qed.

Lemma entityRequestToDb_columns_truthy_witness :
  let request :=
    {| req_locationId := Some "";
       req_entity :=
         {| apiVersion := ""; kind := "";
            metadata := Some (Sample.meta (Some "") (Some "") (Some 0)
                                (Some ""));
            spec := None |} |} in
  let row := entityRequestToDb request "uuid-3" in
  row_id row <> "" /\
  row_generation row <> 0 /\
  row_locationId row <> Some "" /\
  row_name row <> Some "" /\
  row_namespace row <> Some "" /\
  row_apiVersion row = "" /\
  row_kind row = "".
Proof.
  cbv zeta.
  apply (entityRequestToDb_columns_truthy
           {| req_locationId := Some "";
              req_entity :=
                {| apiVersion := ""; kind := "";
                   metadata := Some (Sample.meta (Some "") (Some "") (Some 0)
                                       (Some ""));
                   spec := None |} |}
           "uuid-3").
  discriminate.
Defined.

(** ** Locations *)

Lemma location_select (id : string) (db : Db) :
  Database.location id db =
  match filter (fun r => loc_id r =? id) (locations_table db) with
  | [] => (Err (NotFoundError (Database.not_found_location id)), db)
  | item :: _ => (Ok item, db)
  end.
Proof.
  unfold Database.location, bind, select_locations.
  rewrite select_location_by_id.
  destruct (filter _ _); reflexivity.
Qed.

Lemma addLocation_cases (location : AddDatabaseLocation) (uuid : string)
    (db : Db) :
  Database.addLocation location uuid db =
  match filter (fun r => loc_target r =? add_target location)
          (locations_table db) with
  | existing :: _ => (Ok (Some existing), db)
  | [] =>
      if locations_pkey_taken (new_location location uuid) (locations_table db)
      then (Err (ConstraintError "locations_pkey"), db)
      else (Ok (Some (new_location location uuid)),
            with_location db (new_location location uuid))
  end.
Proof.
  unfold Database.addLocation, transaction, bind.
  unfold select_locations at 1. rewrite select_by_target.
  destruct (filter (fun r => loc_target r =? add_target location)
              (locations_table db)) as [|existing rest]; [|reflexivity].
  unfold insert_location. fold (new_location location uuid).
  destruct (locations_pkey_taken _ _) eqn:Hp; [reflexivity|].
  unfold select_locations, ret; cbn [locations_table].
  rewrite select_location_by_id, filter_app.
  unfold locations_pkey_taken in Hp. cbn [loc_id new_location] in Hp.
  apply filter_nil_existsb in Hp. rewrite Hp.
  cbn [filter app loc_id new_location]. rewrite String.eqb_refl.
  reflexivity.
Qed.

(** X12. [location(id)] fails with the NotFound error exactly when no
    location row has that id, and returns a stored row of that id
    otherwise. *)
Theorem location_not_found_iff_unknown (id : string) (db : Db) :
  (Database.location id db
   = (Err (NotFoundError (Database.not_found_location id)), db)
   <-> existsb (fun r => loc_id r =? id) (locations_table db) = false) /\
  (existsb (fun r => loc_id r =? id) (locations_table db) = true ->
   exists item,
     In item (locations_table db) /\
     loc_id item = id /\
     Database.location id db = (Ok item, db)).
Proof.
  rewrite location_select.
  destruct (filter (fun r => loc_id r =? id) (locations_table db))
    as [|item rest] eqn:Hf.
  - apply filter_nil_existsb in Hf. rewrite Hf. split.
    + split; reflexivity.
    + discriminate.
  - pose proof (filter_cons_existsb _ _ _ _ Hf) as Hex. rewrite Hex. split.
    + split; discriminate.
    + intros _. exists item.
      assert (In item (item :: rest)) as Hin by (left; reflexivity).
      rewrite <- Hf in Hin. apply filter_In in Hin as [Hin Hid].
      apply String.eqb_eq in Hid. repeat split; assumption.
Qed.

Lemma location_not_found_iff_unknown_witness :
  Database.location "loc-9" small_db
  = (Err (NotFoundError "Found no location with ID loc-9"), small_db) /\
  exists item,
    In item (locations_table small_db) /\
    loc_id item = "loc-2" /\
    Database.location "loc-2" small_db = (Ok item, small_db).
Proof.
  split.
  - apply (proj1 (location_not_found_iff_unknown "loc-9" small_db)).
    reflexivity.
  - apply (proj2 (location_not_found_iff_unknown "loc-2" small_db)).
    reflexivity.
Defined.

(** X13. For a target no row has, [addLocation] stores the type and target
    of its input under the generated id, after the rows there are, and
    returns that row; if the generated id is the id of a stored row, it
    throws the primary-key error and writes nothing. *)
Theorem addLocation_new_target (location : AddDatabaseLocation)
    (uuid : string) (db : Db) :
  existsb (fun r => loc_target r =? add_target location) (locations_table db)
  = false ->
  if existsb (fun r => loc_id r =? uuid) (locations_table db)
  then Database.addLocation location uuid db
       = (Err (ConstraintError "locations_pkey"), db)
  else Database.addLocation location uuid db
       = (Ok (Some {| loc_id := uuid;
                      loc_type := add_type location;
                      loc_target := add_target location |}),
          {| locations_table :=
               (locations_table db ++
                [{| loc_id := uuid;
                    loc_type := add_type location;
                    loc_target := add_target location |}])%list;
             entities_table := entities_table db |}).
Proof.
  intros Ht. rewrite addLocation_cases.
  apply filter_nil_existsb in Ht. rewrite Ht.
  unfold locations_pkey_taken. cbn [loc_id new_location].
  destruct (existsb _ _); reflexivity.
Qed.

Lemma addLocation_new_target_witness :
  Database.addLocation {| add_type := "url"; add_target := "c.yaml" |}
    "loc-1" small_db
  = (Err (ConstraintError "locations_pkey"), small_db).
Proof.
  apply (addLocation_new_target {| add_type := "url"; add_target := "c.yaml" |}
           "loc-1" small_db).
  reflexivity.
Defined.

Lemma filter_id_of_member (x : DbLocationsRow) (l : list DbLocationsRow) :
  distinct_by same_location_id l = true ->
  In x l ->
  filter (fun r => loc_id r =? loc_id x) l = [x].
Proof.
  induction l as [|y l IH]; [contradiction|].
  cbn [distinct_by filter]. intros H Hin. apply andb_prop in H as [Hy Hl].
  apply negb_true_iff in Hy. rewrite existsb_false_In in Hy.
  destruct Hin as [->|Hin].
  - rewrite String.eqb_refl. f_equal.
    apply filter_nil_existsb, existsb_false_In. intros r Hr.
    rewrite String.eqb_sym. exact (Hy r Hr).
  - specialize (Hy x Hin). unfold same_location_id in Hy.
    rewrite Hy. now apply IH.
Qed.

(** X14. While location ids are unique, the row [addLocation] returns is
    the row [location] then finds under its id. *)
Theorem addLocation_then_location (location : AddDatabaseLocation)
    (uuid : string) (db db1 : Db) (row : DbLocationsRow) :
  locations_pkey db = true ->
  Database.addLocation location uuid db = (Ok (Some row), db1) ->
  Database.location (loc_id row) db1 = (Ok row, db1).
Proof.
  intros Hk. rewrite addLocation_cases.
  destruct (filter (fun r => loc_target r =? add_target location)
              (locations_table db)) as [|existing rest] eqn:Hsel.
  - destruct (locations_pkey_taken _ _) eqn:Hp; [discriminate|].
    intros E; inversion E; subst row db1; clear E.
    rewrite location_select. unfold with_location; cbn [locations_table].
    rewrite filter_app. unfold locations_pkey_taken in Hp.
    apply filter_nil_existsb in Hp. rewrite Hp.
    cbn [filter app]. now rewrite String.eqb_refl.
  - intros E; inversion E; subst row db1; clear E.
    rewrite location_select.
    assert (In existing (existing :: rest)) as Hin by (left; reflexivity).
    rewrite <- Hsel in Hin. apply filter_In in Hin as [Hin _].
    now rewrite (filter_id_of_member existing _ Hk Hin).
Qed.

Lemma addLocation_then_location_witness :
  Database.location "loc-1" small_db
  = (Ok {| loc_id := "loc-1"; loc_type := "github";
           loc_target := "https://example.com/a.yaml" |}, small_db).
Proof.
  apply (addLocation_then_location Sample.github "loc-3" small_db small_db
           {| loc_id := "loc-1"; loc_type := "github";
              loc_target := "https://example.com/a.yaml" |});
    reflexivity.
Defined.

Lemma filter_negb_none {A : Type} (f : A -> bool) (l : list A) :
  filter f (filter (fun x => negb (f x)) l) = [].
Proof.
  induction l as [|x l IH]; [reflexivity|]. cbn [filter].
  destruct (f x) eqn:E; cbn [negb filter]; [exact IH|now rewrite E].
Qed.

(** X15. [removeLocation] undoes an [addLocation] that stored a new row:
    for a target no row has and a generated id no row has, adding the
    location and then removing it by that id gives back the store as it
    was. *)
Theorem removeLocation_undoes_addLocation (location : AddDatabaseLocation)
    (uuid : string) (db : Db) :
  existsb (fun r => loc_target r =? add_target location) (locations_table db)
  = false ->
  existsb (fun r => loc_id r =? uuid) (locations_table db) = false ->
  Database.removeLocation uuid (snd (Database.addLocation location uuid db))
  = (Ok tt, db).
Proof.
  intros Ht Hi. rewrite addLocation_cases.
  pose proof Ht as Ht'. apply filter_nil_existsb in Ht'. rewrite Ht'.
  unfold locations_pkey_taken. cbn [loc_id new_location]. rewrite Hi.
  cbn [snd]. rewrite removeLocation_cases.
  unfold with_location; cbn [locations_table entities_table].
  rewrite !filter_app. cbn [filter app loc_id new_location].
  rewrite String.eqb_refl. cbn [negb].
  apply filter_nil_existsb in Hi. rewrite Hi. cbn [app].
  rewrite (filter_negb_all _ _ Hi), app_nil_r, Db_eta. reflexivity.
Qed.

Lemma removeLocation_undoes_addLocation_witness :
  Database.removeLocation "loc-3"
    (snd (Database.addLocation {| add_type := "url"; add_target := "c.yaml" |}
            "loc-3" small_db))
  = (Ok tt, small_db).
Proof.
  apply (removeLocation_undoes_addLocation
           {| add_type := "url"; add_target := "c.yaml" |} "loc-3" small_db);
    reflexivity.
Defined.

(** X16. Once [removeLocation(id)] succeeded the id is gone: [location(id)]
    on the resulting store fails with NotFound, and so does a second
    [removeLocation(id)]. *)
Theorem removeLocation_then_gone (id : string) (db db' : Db) :
  Database.removeLocation id db = (Ok tt, db') ->
  Database.location id db'
  = (Err (NotFoundError (Database.not_found_location id)), db') /\
  Database.removeLocation id db'
  = (Err (NotFoundError (Database.not_found_location id)), db').
Proof.
  rewrite removeLocation_cases.
  destruct (filter (fun r => loc_id r =? id) (locations_table db));
    [discriminate|].
  intros E; inversion E; subst db'; clear E.
  rewrite location_select, removeLocation_cases. cbn [locations_table].
  rewrite (filter_negb_none (fun r => loc_id r =? id)). now split.
Qed.

Lemma removeLocation_then_gone_witness :
  let db' := snd (Database.removeLocation "loc-1" small_db) in
  Database.location "loc-1" db'
  = (Err (NotFoundError "Found no location with ID loc-1"), db') /\
  Database.removeLocation "loc-1" db'
  = (Err (NotFoundError "Found no location with ID loc-1"), db').
Proof.
  cbv zeta.
  apply (removeLocation_then_gone "loc-1" small_db
           (snd (Database.removeLocation "loc-1" small_db))).
  reflexivity.
Defined.

(** X17. [removeLocation(id)] leaves every other location where it is:
    [location] answers for any other id what it answered before, whether the
    removal succeeded or threw; and it leaves the entities table alone. *)
Theorem removeLocation_leaves_other_locations (id other : string) (db : Db) :
  other <> id ->
  let db' := snd (Database.removeLocation id db) in
  fst (Database.location other db') = fst (Database.location other db) /\
  entities_table db' = entities_table db.
Proof.
  intros Hne. cbv zeta. rewrite removeLocation_cases.
  destruct (filter (fun r => loc_id r =? id) (locations_table db));
    cbn [snd]; [now split|].
  split; [|reflexivity].
  rewrite !location_select. cbn [locations_table].
  assert (filter (fun r => loc_id r =? other)
            (filter (fun r => negb (loc_id r =? id)) (locations_table db))
          = filter (fun r => loc_id r =? other) (locations_table db)) as ->.
  { induction (locations_table db) as [|x rows IH]; [reflexivity|].
    cbn [filter].
    destruct (String.eqb_spec (loc_id x) id) as [E|E]; cbn [negb filter].
    - destruct (String.eqb_spec (loc_id x) other) as [E'|E'];
        [congruence | exact IH].
    - now rewrite IH. }
  destruct (filter _ _); reflexivity.
Qed.

Lemma removeLocation_leaves_other_locations_witness :
  fst (Database.location "loc-2" (snd (Database.removeLocation "loc-1" small_db)))
  = fst (Database.location "loc-2" small_db) /\
  entities_table (snd (Database.removeLocation "loc-1" small_db))
  = entities_table small_db.
Proof.
  apply (removeLocation_leaves_other_locations "loc-1" "loc-2" small_db).
  discriminate.
Defined.

Lemma locations_all (db : Db) :
  Database.locations db = (Ok (locations_table db), db).
Proof.
  unfold Database.locations, select_locations. f_equal. f_equal.
  induction (locations_table db) as [|x l IH]; [reflexivity|].
  cbn [filter where_ forallb]. now rewrite IH.
Qed.

(** X18. [locations()] lists every stored row in store order; after an
    [addLocation] that returned, the listing is the one before when the
    target was known, and the one before followed by the returned row when
    it was not. *)
Theorem addLocation_then_locations (location : AddDatabaseLocation)
    (uuid : string) (db db1 : Db) (first : option DbLocationsRow) :
  Database.addLocation location uuid db = (Ok first, db1) ->
  exists row,
    first = Some row /\
    Database.locations db = (Ok (locations_table db), db) /\
    Database.locations db1
    = (Ok (if existsb (fun r => loc_target r =? add_target location)
                (locations_table db)
           then locations_table db
           else (locations_table db ++ [row])%list), db1).
Proof.
  rewrite addLocation_cases.
  destruct (filter (fun r => loc_target r =? add_target location)
              (locations_table db)) as [|existing rest] eqn:Hsel.
  - apply filter_nil_existsb in Hsel. rewrite Hsel.
    destruct (locations_pkey_taken _ _); [discriminate|].
    intros E; inversion E; subst first db1; clear E.
    eexists. split; [reflexivity|]. rewrite !locations_all. now split.
  - apply filter_cons_existsb in Hsel. rewrite Hsel.
    intros E; inversion E; subst first db1; clear E.
    eexists. split; [reflexivity|]. rewrite !locations_all. now split.
Qed.

Lemma addLocation_then_locations_witness :
  exists row,
    Some (new_location {| add_type := "url"; add_target := "c.yaml" |} "loc-3")
    = Some row /\
    Database.locations small_db = (Ok (locations_table small_db), small_db) /\
    Database.locations
      (with_location small_db
         (new_location {| add_type := "url"; add_target := "c.yaml" |}
            "loc-3"))
    = (Ok (locations_table small_db ++ [row])%list,
       with_location small_db
         (new_location {| add_type := "url"; add_target := "c.yaml" |}
            "loc-3")).
Proof.
  apply (addLocation_then_locations
           {| add_type := "url"; add_target := "c.yaml" |} "loc-3" small_db).
  reflexivity.
Defined.

(** X19. [addLocation] and [removeLocation] keep the locations table
    well-keyed: if no two rows share an id and no two rows share a target,
    the same is true of the store either call leaves behind. *)
Theorem locations_stay_distinct (db : Db) :
  locations_pkey db = true ->
  targets_unique db = true ->
  (forall location uuid,
     let db1 := snd (Database.addLocation location uuid db) in
     locations_pkey db1 = true /\ targets_unique db1 = true) /\
  (forall id,
     let db1 := snd (Database.removeLocation id db) in
     locations_pkey db1 = true /\ targets_unique db1 = true).
Proof.
  intros Hk Ht. split.
  - intros location uuid. cbv zeta. rewrite addLocation_cases.
    destruct (filter (fun r => loc_target r =? add_target location)
                (locations_table db)) as [|existing rest] eqn:Hsel;
      [|cbn [snd]; now split].
    destruct (locations_pkey_taken _ _) eqn:Hp; cbn [snd]; [now split|].
    unfold locations_pkey, targets_unique, with_location.
    cbn [locations_table]. rewrite !distinct_by_snoc.
    unfold locations_pkey in Hk. unfold targets_unique in Ht.
    rewrite Hk, Ht. unfold locations_pkey_taken in Hp.
    unfold same_location_id, same_target. rewrite Hp.
    apply filter_nil_existsb in Hsel. cbn [loc_target new_location].
    rewrite Hsel. now split.
  - intros id. cbv zeta. rewrite removeLocation_cases.
    destruct (filter (fun r => loc_id r =? id) (locations_table db));
      cbn [snd]; [now split|].
    unfold locations_pkey, targets_unique. cbn [locations_table].
    split; now apply distinct_by_filter.
Qed.

Lemma locations_stay_distinct_witness :
  locations_pkey (snd (Database.addLocation Sample.github "loc-3" small_db))
  = true /\
  targets_unique (snd (Database.removeLocation "loc-1" small_db)) = true.
Proof.
  split.
  - apply (proj1 (locations_stay_distinct small_db eq_refl eq_refl)
             Sample.github "loc-3").
  - apply (proj2 (locations_stay_distinct small_db eq_refl eq_refl) "loc-1").
Defined.

(** ** Reads take uid and generation from the columns *)

Lemma entityDbToResponse_from_columns (row : DbEntitiesRow) :
  blob_without_uid_generation row = true ->
  from_columns row (entityDbToResponse row).
Proof.
  unfold blob_without_uid_generation, from_columns, entityDbToResponse.
  cbn. destruct (row_metadata row) as [[m]|]; cbn; [|now repeat split].
  destruct (md_uid m), (md_generation m); try discriminate.
  now repeat split.
Qed.

(** X20. In a store where no metadata blob has a uid or a generation key,
    [addOrUpdateEntity] leaves a store of which that is true again, and
    every envelope that [entities()] or [entity()] returns is read from a
    stored row and has that row's id column as its uid and that row's
    generation column as its generation. *)
Theorem reads_take_uid_generation_from_columns (db : Db) :
  blobs_without_uid_generation db = true ->
  (forall request uuid,
     blobs_without_uid_generation
       (snd (Database.addOrUpdateEntity request uuid db)) = true) /\
  (forall listed db',
     Database.entities db = (Ok listed, db') ->
     Forall (fun e => exists row,
                 In row (entities_table db) /\ from_columns row e) listed) /\
  (forall n ns found db',
     Database.entity n ns db = (Ok found, db') ->
     exists row, In row (entities_table db) /\ from_columns row found).
Proof.
  intros Hclean. unfold blobs_without_uid_generation in Hclean.
  rewrite forallb_forall in Hclean. repeat split.
  - intros request uuid.
    destruct (Database.addOrUpdateEntity request uuid db) as [[resp|e] db']
      eqn:Hadd; cbn [snd].
    + apply addOrUpdateEntity_Ok in Hadd as [-> _].
      unfold blobs_without_uid_generation, with_entity.
      cbn [entities_table]. rewrite forallb_app. cbn [forallb].
      rewrite andb_true_r. apply andb_true_intro. split.
      * apply forallb_forall. exact Hclean.
      * now destruct request as [l [av k [m|] sp]].
    + apply addOrUpdateEntity_failure_cases in Hadd. subst db'.
      apply forallb_forall. exact Hclean.
  - intros listed db' H.
    destruct (entities_orders_by_namespace_alone db) as [_ E].
    rewrite E in H. inversion H; subst listed db'. apply Forall_forall.
    intros e He. apply in_map_iff in He as [row [<- Hrow]].
    assert (In row (entities_table db)) as Hin
      by (eapply Permutation_in;
          [apply Permutation_sym, sort_by_perm | exact Hrow]).
    exists row. split; [exact Hin|].
    apply entityDbToResponse_from_columns. now apply Hclean.
  - intros n ns found db'. rewrite entity_select.
    destruct (filter (names_row n ns) (entities_table db))
      as [|item [|second rest]] eqn:Hf; try discriminate.
    intros H; inversion H; subst found db'.
    assert (In item [item]) as Hin by (left; reflexivity).
    rewrite <- Hf in Hin. apply filter_In in Hin as [Hin _].
    exists item. split; [exact Hin|].
    apply entityDbToResponse_from_columns. now apply Hclean.
Qed.

Lemma reads_take_uid_generation_from_columns_witness :
  blobs_without_uid_generation
    (snd (Database.addOrUpdateEntity
            (Sample.component
               (Sample.meta (Some "b") (Some "x") (Some 7) None))
            "uuid-3" small_db)) = true /\
  exists row,
    In row (entities_table small_db) /\
    from_columns row
      (entityDbToResponse
         (entityRequestToDb (Sample.in_namespace "a" "x") "uuid-1")).
Proof.
  split.
  - apply (proj1 (reads_take_uid_generation_from_columns small_db eq_refl)).
  - apply (proj2 (proj2 (reads_take_uid_generation_from_columns small_db
                           eq_refl))
             "a" (Some "x") _ small_db).
    reflexivity.
Defined.
